(** * cmd/minikube/cmd/config/util.go

    A shallow embedding of minikube's configuration helpers: the setting
    applier [run], the registry scan [findSetting], the typed mutators
    [SetString], [SetInt], [SetBool], the client type resolver
    [GetClientType] and the add-on toggle [EnableOrDisableAddon].

    Go maps are [gmap]s, Go strings are byte strings ([string]), a Go
    [(T, error)] result is a pair whose second component is an [option],
    [None] standing for the nil error.  The configuration store is mutated
    in place by the Go code; here every mutator returns the store it leaves
    behind. *)

From Stdlib Require Import ZArith Ascii String.
From stdpp Require Import gmap strings list fin_maps.

Local Open Scope string_scope.
Local Open Scope Z_scope.

(** ** Go's [error] interface

    An error is any value with an [Error() string] method. *)

Class error (E : Type) := Error : E → string.

(** [errors.New] and [fmt.Errorf] build an error that is just its text. *)
Record errorString := { errorString_s : string }.

#[export] Instance errorString_error : error errorString := errorString_s.

(** [errors.Wrapf (err, format, args...)] of github.com/pkg/errors keeps
    the cause and prefixes its text with the formatted message. *)
Record withMessage (E : Type) := { cause : E; msg : string }.
Arguments cause {E} _.
Arguments msg {E} _.

#[export] Instance withMessage_error `{error E} : error (withMessage E) :=
  λ w, msg w +:+ ": " +:+ Error (cause w).

Definition Wrapf {E} (err : E) (message : string) : withMessage E :=
  {| cause := err; msg := message |}.

(** [contains s t]: the text [t] occurs in [s]. *)
Definition contains (s t : string) : Prop :=
  ∃ pre post, s = pre +:+ t +:+ post.

(** ** The part of package [strconv] the file calls *)

Module strconv.

Inductive reason := ErrSyntax | ErrRange.

(** [*strconv.NumError]: the input that failed and why.  The [Func]
    field, whose value for [Atoi] differs between Go releases, is left
    out. *)
Record NumError := { Num : string; Err : reason }.

Definition syntaxError (str : string) : NumError :=
  {| Num := str; Err := ErrSyntax |}.
Definition rangeError (str : string) : NumError :=
  {| Num := str; Err := ErrRange |}.

(** [ParseBool] is one [switch] over twelve literals. *)
Definition ParseBool (str : string) : bool * option NumError :=
  if (String.eqb str "1" || String.eqb str "t" || String.eqb str "T"
      || String.eqb str "true" || String.eqb str "TRUE"
      || String.eqb str "True")%bool
  then (true, None)
  else if (String.eqb str "0" || String.eqb str "f" || String.eqb str "F"
           || String.eqb str "false" || String.eqb str "FALSE"
           || String.eqb str "False")%bool
  then (false, None)
  else (false, Some (syntaxError str)).

(** minikube is built for amd64: [int] has 64 bits. *)
Definition intSize : Z := 64.
Definition maxUint64 : Z := 2 ^ 64 - 1.

Definition isDigit (c : ascii) : bool :=
  (48 <=? Z.of_N (N_of_ascii c)) && (Z.of_N (N_of_ascii c) <=? 57).

Definition digit (c : ascii) : Z := Z.of_N (N_of_ascii c) - 48.

(** The digit loop of [ParseUint (s, 10, 64)]: [inl n] is the number
    read, [inr r] the reason for stopping.  An overflow stops the loop
    at once, before the remaining bytes are looked at. *)
Fixpoint ParseUint_loop (s : string) (n : Z) : Z + reason :=
  match s with
  | EmptyString => inl n
  | String c rest =>
      if negb (isDigit c) then inr ErrSyntax
      else if maxUint64 / 10 + 1 <=? n then inr ErrRange
      else
        let n1 := n * 10 + digit c in
        if maxUint64 <? n1 then inr ErrRange
        else ParseUint_loop rest n1
  end.

Definition ParseUint (s : string) : Z + reason :=
  match s with
  | EmptyString => inr ErrSyntax
  | _ => ParseUint_loop s 0
  end.

(** [ParseInt (s, 10, 0)]: an optional sign, then [ParseUint], then the
    range check against [2 ^ (intSize - 1)]. *)
Definition ParseInt (s0 : string) : Z * option NumError :=
  match s0 with
  | EmptyString => (0, Some (syntaxError s0))
  | String c rest =>
      let neg := Ascii.eqb c "-" in
      let s := if (Ascii.eqb c "+" || Ascii.eqb c "-")%bool then rest else s0 in
      let cutoff := 2 ^ (intSize - 1) in
      match ParseUint s with
      | inr ErrSyntax => (0, Some (syntaxError s0))
      | inr ErrRange =>
          if neg then (- cutoff, Some (rangeError s0))
          else (cutoff - 1, Some (rangeError s0))
      | inl un =>
          if (negb neg && (cutoff <=? un))%bool
          then (cutoff - 1, Some (rangeError s0))
          else if (neg && (cutoff <? un))%bool
          then (- cutoff, Some (rangeError s0))
          else (if neg then - un else un, None)
      end
  end.

(** [Atoi (s)] is [ParseInt (s, 10, 0)] converted to [int]. *)
Definition Atoi (s : string) : Z * option NumError := ParseInt s.

End strconv.

(** ** The configuration store

    [config.MinikubeConfig] is [map[string]interface{}]; the mutators put
    strings, ints and bools into it. *)

Inductive value :=
| VString (s : string)
| VInt (i : Z)
| VBool (b : bool).

Abbreviation MinikubeConfig := (gmap string value).

(** ** Set functions *)

Definition SetString (m : MinikubeConfig) (name val : string)
  : MinikubeConfig * option strconv.NumError :=
  (<[name := VString val]> m, None).

Definition SetInt (m : MinikubeConfig) (name val : string)
  : MinikubeConfig * option strconv.NumError :=
  match strconv.Atoi val with
  | (_, Some err) => (m, Some err)
  | (i, None) => (<[name := VInt i]> m, None)
  end.

Definition SetBool (m : MinikubeConfig) (name val : string)
  : MinikubeConfig * option strconv.NumError :=
  match strconv.ParseBool val with
  | (_, Some err) => (m, Some err)
  | (b, None) => (<[name := VBool b]> m, None)
  end.

(** ** The setting applier *)

Section Applier.

(** What the validation and callback functions may read and change, and
    the errors they return. *)
Context {St E : Type} `{error E}.

(** [type setFn func(string, string) error] *)
Definition setFn : Type := string → string → St → St * option E.

(** The [for _, fn := range fns] loop, with the slice [errors] it
    appends to. *)
Fixpoint run_loop (name value : string) (fns : list setFn)
    (st : St) (errors : list E) : St * list E :=
  match fns with
  | [] => (st, errors)
  | fn :: fns' =>
      let '(st', err) := fn name value st in
      match err with
      | Some e => run_loop name value fns' st' (errors ++ [e])
      | None => run_loop name value fns' st' errors
      end
  end.

(** [fmt.Errorf ("%v", errors)] for a slice of errors: the texts of the
    elements, separated by one space, between square brackets. *)
Fixpoint join_errors (errors : list E) : string :=
  match errors with
  | [] => EmptyString
  | [e] => Error e
  | e :: rest => Error e +:+ " " +:+ join_errors rest
  end.

Definition Errorf_v (errors : list E) : errorString :=
  {| errorString_s := "[" +:+ join_errors errors +:+ "]" |}.

Definition run (name value : string) (fns : list setFn) (st : St)
  : St * option errorString :=
  let '(st', errors) := run_loop name value fns st [] in
  if 0 <? Z.of_nat (length errors)
  then (st', Some (Errorf_v errors))
  else (st', None).

End Applier.

(** ** The setting registry *)

(** Modelled from the spec: the [Setting] struct is declared in another
    file of the package; a setting has a name, a setter and an ordered
    sequence of validators.  A nil function is [None], a nil slice [[]]. *)
Record Setting {St E : Type} := {
  name : string;
  set : option (MinikubeConfig → string → string → MinikubeConfig * option E);
  validations : list (@setFn St E)
}.
Arguments Setting : clear implicits.

Section Registry.

Context {St E : Type}.

(** The package-level slice [settings], filled in elsewhere. *)
Variable settings : list (Setting St E).

(** [Setting{}] *)
Definition Setting_zero : Setting St E :=
  {| name := EmptyString; set := None; validations := [] |}.

(** [fmt.Errorf ("Property name %s not found", name)] *)
Definition not_found (name : string) : errorString :=
  {| errorString_s := "Property name " +:+ name +:+ " not found" |}.

Fixpoint findSetting_loop (name0 : string) (ss : list (Setting St E))
  : Setting St E * option errorString :=
  match ss with
  | [] => (Setting_zero, Some (not_found name0))
  | s :: ss' =>
      if String.eqb name0 (name s) then (s, None)
      else findSetting_loop name0 ss'
  end.

Definition findSetting (name0 : string) : Setting St E * option errorString :=
  findSetting_loop name0 settings.

End Registry.

(** ** Running a command: results and the calls made on the way

    The toggle talks to collaborators that live outside util.go: the
    prompt, the file system, the secret manager, the machine API, the
    cluster guard and the SSH transport.  A computation yields how it
    ended together with the calls it made, in order. *)

Inductive ClientType := ClientTypeLocal | ClientTypeRPC.

(** How a computation ends: it hands back a value, the process exits
    ([os.Exit]), or a run-time panic unwinds the stack. *)
Inductive result (A : Type) :=
| Normal (a : A)
| Exit (code : Z)
| Panic.
Arguments Normal {A} _.
Arguments Exit {A} _.
Arguments Panic {A}.

Section Toggle.

(** [*assets.Addon], [drivers.Driver], [libmachine.API], [*ssh.Client]
    and the errors of the collaborators. *)
Context {Addon drivers_Driver API SSHClient E : Type} `{error E}.

(** [*host.Host], of which only the field [Driver] is read. *)
Record Host := { Driver : drivers_Driver }.

Inductive event :=
| AskForYesNoConfirmation_call (s : string) (posResponses negResponses : list string)
| AskForStaticValue_call (s : string)
| ReadFile_call (filename : string)
| Println (text : string)
| Fprintf_Stderr (text : string)
| CreateSecret_call (namespace name : string) (data labels : gmap string string)
| DeleteSecret_call (namespace name : string)
| NewAPIClient_call (clientType : ClientType)
| Close_call (api : API)
| EnsureMinikubeRunningOrExit_call (api : API) (exitStatus : Z)
| CheckIfApiExistsAndLoad_call (api : API)
| NewSSHClient_call (d : drivers_Driver)
| TransferAddon_call (addon : option Addon) (client : SSHClient)
| DeleteAddon_call (addon : option Addon) (client : SSHClient).

Record M (A : Type) := mk { outcome : result A; trace : list event }.
Arguments mk {A} _ _.
Arguments outcome {A} _.
Arguments trace {A} _.

#[global] Instance M_ret : MRet M := λ A a, mk (Normal a) [].

(** The calls of [m], after those in [t]. *)
Definition after {A} (t : list event) (m : M A) : M A :=
  match m with
  | mk o t' => mk o (t ++ t')
  end.

#[global] Instance M_bind : MBind M := λ A B f m,
  match m with
  | mk (Normal a) t => after t (f a)
  | mk (Exit code) t => mk (Exit code) t
  | mk Panic t => mk Panic t
  end.

Definition call {A} (e : event) (a : A) : M A := mk (Normal a) [e].
Definition os_Exit {A} (code : Z) : M A := mk (Exit code) [].
Definition panic {A} : M A := mk Panic [].

(** [defer cleanup] in front of [body]: the deferred call runs when the
    body returns and when it panics, not when the process exits. *)
Definition defer {A} (cleanup : M unit) (body : M A) : M A :=
  match body with
  | mk (Exit code) t => mk (Exit code) t
  | mk o t => mk o (t ++ trace cleanup)
  end.

(** The collaborators.  Each prompt text is asked, each secret named and
    each handle used at most once in a run, so a collaborator's answer
    is a function of the arguments of the call. *)
Record World := {
  (** the key constant [useVendoredDriver] and [viper.GetBool] *)
  useVendoredDriver : string;
  GetBool : string → bool;
  AskForYesNoConfirmation : string → list string → list string → bool;
  AskForStaticValue : string → string;
  (** [ioutil.ReadFile] *)
  ReadFile : string → string * option E;
  (** [service.CreateSecret], [service.DeleteSecret] *)
  CreateSecret : string → string → gmap string string → gmap string string → option E;
  DeleteSecret : string → string → option E;
  (** [machine.NewAPIClient] *)
  NewAPIClient : ClientType → API * option E;
  (** [cluster.EnsureMinikubeRunningOrExit]: [Some code] when it ends the
      process with that status *)
  EnsureMinikubeRunningOrExit : API → Z → option Z;
  (** [assets.Addons], of type [map[string]*Addon] *)
  Addons : gmap string Addon;
  (** [cluster.CheckIfApiExistsAndLoad]: a nil host is [None] *)
  CheckIfApiExistsAndLoad : API → option Host * option E;
  (** [sshutil.NewSSHClient], [sshutil.TransferAddon], [sshutil.DeleteAddon];
      a nil [*assets.Addon] is [None] *)
  NewSSHClient : drivers_Driver → SSHClient * option E;
  TransferAddon : option Addon → SSHClient → option E;
  DeleteAddon : option Addon → SSHClient → option E
}.

Variable w : World.

Definition GetClientType : ClientType :=
  if GetBool w (useVendoredDriver w) then ClientTypeLocal else ClientTypeRPC.

(** Calls of the collaborators, recorded as they are made. *)
Definition ask_yes_no (s : string) (pos neg : list string) : M bool :=
  call (AskForYesNoConfirmation_call s pos neg) (AskForYesNoConfirmation w s pos neg).
Definition ask_value (s : string) : M string :=
  call (AskForStaticValue_call s) (AskForStaticValue w s).
Definition read_file (filename : string) : M (string * option E) :=
  call (ReadFile_call filename) (ReadFile w filename).
Definition println (text : string) : M unit := call (Println text) ().
Definition create_secret (namespace name : string)
    (data labels : gmap string string) : M (option E) :=
  call (CreateSecret_call namespace name data labels)
       (CreateSecret w namespace name data labels).
Definition delete_secret (namespace name : string) : M (option E) :=
  call (DeleteSecret_call namespace name) (DeleteSecret w namespace name).

Definition deleteAddonViaDriver (addon : option Addon) (d : drivers_Driver)
  : M (option E) :=
  '(client, err) ← call (NewSSHClient_call d) (NewSSHClient w d);
  match err with
  | Some e => mret (Some e)
  | None =>
      err ← call (DeleteAddon_call addon client) (DeleteAddon w addon client);
      match err with
      | Some e => mret (Some e)
      | None => mret None
      end
  end.

Definition transferAddonViaDriver (addon : option Addon) (d : drivers_Driver)
  : M (option E) :=
  '(client, err) ← call (NewSSHClient_call d) (NewSSHClient w d);
  match err with
  | Some e => mret (Some e)
  | None =>
      err ← call (TransferAddon_call addon client) (TransferAddon w addon client);
      match err with
      | Some e => mret (Some e)
      | None => mret None
      end
  end.

(** The line feed of the Go literals. *)
Definition LF : string := String "010"%char EmptyString.

(** The error [EnableOrDisableAddon] returns is either an error of a
    collaborator as it came ([inl]) or one wrapped by [errors.Wrapf]
    ([inr]). *)
Definition EnableOrDisableAddon (name val : string)
  : M (option (E + withMessage E)) :=
  let '(enable, err) := strconv.ParseBool val in
  (* the wrapped parse error is built and dropped *)
  let _ := match err with
           | Some e => Some (Wrapf e ("error attempted to parse enabled/disable value addon " +:+ name))
           | None => None
           end in
  (if enable then
     if String.eqb name "registry-creds" then
       let posResponses := ["yes"; "y"] in
       let negResponses := ["no"; "n"] in
       enableAWSECR ← ask_yes_no (LF +:+ "Do you want to enable AWS Elastic Container Registry?") posResponses negResponses;
       '(awsAccessID, awsAccessKey, awsRegion, awsAccount) ←
         (if enableAWSECR : bool then
            awsAccessID ← ask_value "-- Enter AWS Access Key ID: ";
            awsAccessKey ← ask_value "-- Enter AWS Secret Access Key: ";
            awsRegion ← ask_value "-- Enter AWS Region: ";
            awsAccount ← ask_value "-- Enter 12 digit AWS Account ID: ";
            mret (awsAccessID, awsAccessKey, awsRegion, awsAccount)
          else mret ("changeme", "changeme", "changeme", "changeme"));
       enableGCR ← ask_yes_no (LF +:+ "Do you want to enable Google Container Registry?") posResponses negResponses;
       gcrApplicationDefaultCredentials ←
         (if enableGCR : bool then
            gcrPath ← ask_value "-- Enter path to credentials (e.g. /home/user/.config/gcloud/application_default_credentials.json):";
            '(dat, err) ← read_file gcrPath;
            match err with
            | Some _ =>
                println "Could not read file for application_default_credentials.json";;
                mret "changeme"
            | None => mret dat
            end
          else mret "changeme");
       enableDR ← ask_yes_no (LF +:+ "Do you want to enable Docker Registry?") posResponses negResponses;
       '(dockerServer, dockerUser, dockerPass) ←
         (if enableDR : bool then
            dockerServer ← ask_value "-- Enter docker registry server url: ";
            dockerUser ← ask_value "-- Enter docker registry username: ";
            dockerPass ← ask_value "-- Enter docker registry password: ";
            mret (dockerServer, dockerUser, dockerPass)
          else mret ("changeme", "changeme", "changeme"));
       err ← create_secret "kube-system" "registry-creds-ecr"
               (list_to_map [("AWS_ACCESS_KEY_ID", awsAccessID);
                             ("AWS_SECRET_ACCESS_KEY", awsAccessKey);
                             ("aws-account", awsAccount);
                             ("aws-region", awsRegion)])
               (list_to_map [("app", "registry-creds");
                             ("cloud", "ecr");
                             ("kubernetes.io/minikube-addons", "registry-creds")]);
       (if err is Some _ then println "ERROR creating `registry-creds-ecr` secret" else mret ());;
       err ← create_secret "kube-system" "registry-creds-gcr"
               (list_to_map [("application_default_credentials.json", gcrApplicationDefaultCredentials)])
               (list_to_map [("app", "registry-creds");
                             ("cloud", "gcr");
                             ("kubernetes.io/minikube-addons", "registry-creds")]);
       (if err is Some _ then println "ERROR creating `registry-creds-gcr` secret" else mret ());;
       err ← create_secret "kube-system" "registry-creds-dpr"
               (list_to_map [("DOCKER_PRIVATE_REGISTRY_SERVER", dockerServer);
                             ("DOCKER_PRIVATE_REGISTRY_USER", dockerUser);
                             ("DOCKER_PRIVATE_REGISTRY_PASSWORD", dockerPass)])
               (list_to_map [("app", "registry-creds");
                             ("cloud", "dpr");
                             ("kubernetes.io/minikube-addons", "registry-creds")]);
       (if err is Some _ then println "ERROR creating `registry-creds-dpr` secret" else mret ())
     else mret ()
   else
     (* Cleanup existing secrets *)
     delete_secret "kube-system" "registry-creds-ecr";;
     delete_secret "kube-system" "registry-creds-gcr";;
     delete_secret "kube-system" "registry-creds-dpr";;
     mret ());;
  '(api, err) ← call (NewAPIClient_call GetClientType) (NewAPIClient w GetClientType);
  match err with
  | Some e =>
      call (Fprintf_Stderr ("Error getting client: " +:+ Error e +:+ LF)) ();;
      os_Exit 1
  | None =>
      defer (call (Close_call api) ()) (
        ensured ← call (EnsureMinikubeRunningOrExit_call api 0)
                       (EnsureMinikubeRunningOrExit w api 0);
        match ensured with
        | Some code => os_Exit code
        | None =>
            let addon := Addons w !! name in (* validation done prior *)
            match err with
            | Some e => mret (Some (inl e))
            | None =>
                '(host, err) ← call (CheckIfApiExistsAndLoad_call api)
                                    (CheckIfApiExistsAndLoad w api);
                match host with
                | None => panic (* host.Driver on a nil host *)
                | Some host =>
                    if enable then
                      err ← transferAddonViaDriver addon (Driver host);
                      match err with
                      | Some e => mret (Some (inr (Wrapf e ("Error transferring addon " +:+ name +:+ " to VM"))))
                      | None => mret None
                      end
                    else
                      err ← deleteAddonViaDriver addon (Driver host);
                      match err with
                      | Some e => mret (Some (inr (Wrapf e ("Error deleting addon " +:+ name +:+ " from VM"))))
                      | None => mret None
                      end
                end
            end
        end)
  end.

End Toggle.

Arguments mk {Addon drivers_Driver API SSHClient A} _ _.
Arguments outcome {Addon drivers_Driver API SSHClient A} _.
Arguments trace {Addon drivers_Driver API SSHClient A} _.

(** ** Vocabulary of the statements *)

(** The boolean literals, by the value they denote. *)
Definition true_lexemes : list string := ["1"; "t"; "T"; "TRUE"; "true"; "True"].
Definition false_lexemes : list string := ["0"; "f"; "F"; "FALSE"; "false"; "False"].

(** Base-10 signed integer literals: an optional sign and at least one
    digit; the value is read positionally. *)
Fixpoint all_digits (s : string) : bool :=
  match s with
  | EmptyString => true
  | String c rest => strconv.isDigit c && all_digits rest
  end.

Definition unsigned_literal (s : string) : bool :=
  match s with
  | EmptyString => false
  | _ => all_digits s
  end.

Definition is_decimal_literal (s : string) : bool :=
  match s with
  | EmptyString => false
  | String c rest =>
      if (Ascii.eqb c "+" || Ascii.eqb c "-")%bool then unsigned_literal rest
      else unsigned_literal s
  end.

Fixpoint decimal_value (s : string) : Z :=
  match s with
  | EmptyString => 0
  | String c rest =>
      strconv.digit c * 10 ^ Z.of_nat (String.length rest) + decimal_value rest
  end.

Definition literal_value (s : string) : Z :=
  match s with
  | EmptyString => 0
  | String c rest =>
      if Ascii.eqb c "-" then - decimal_value rest
      else if Ascii.eqb c "+" then decimal_value rest
      else decimal_value s
  end.

(** What a call of [run] amounts to: the store after every function of
    [fns] has been called once, in order, each on what the previous one
    left; what each call returned; and the errors among those. *)
Section ApplierVocabulary.

Context {St E : Type}.

Definition called_in_turn (name value : string) (fns : list (@setFn St E))
    (st : St) : St :=
  fold_left (λ st fn, (fn name value st).1) fns st.

Fixpoint returned (name value : string) (fns : list (@setFn St E))
    (st : St) : list (option E) :=
  match fns with
  | [] => []
  | fn :: fns' => (fn name value st).2 :: returned name value fns' (fn name value st).1
  end.

Definition failures (name value : string) (fns : list (@setFn St E))
    (st : St) : list E :=
  omap id (returned name value fns st).

End ApplierVocabulary.

(** What the statements about the toggle look at in the record of calls. *)
Section ToggleVocabulary.

Context {Addon drivers_Driver API SSHClient E : Type}.

Abbreviation call_record := (list (@event Addon drivers_Driver API SSHClient)).

Definition is_CreateSecret (e : @event Addon drivers_Driver API SSHClient) : bool :=
  match e with CreateSecret_call _ _ _ _ => true | _ => false end.

Definition is_DeleteSecret (e : @event Addon drivers_Driver API SSHClient) : bool :=
  match e with DeleteSecret_call _ _ => true | _ => false end.

(** The calls the credential collector makes: confirmations, free-text
    prompts and the read of the credentials file. *)
Definition is_collector_call (e : @event Addon drivers_Driver API SSHClient) : bool :=
  match e with
  | AskForYesNoConfirmation_call _ _ _ | AskForStaticValue_call _ | ReadFile_call _ => true
  | _ => false
  end.

(** The warning printed when the creation of the secret [name] fails. *)
Definition creation_warning (name : string) : string :=
  "ERROR creating `" +:+ name +:+ "` secret".

Definition is_creation_warning (e : @event Addon drivers_Driver API SSHClient) : bool :=
  match e with
  | Println text =>
      bool_decide (text ∈ creation_warning <$>
                     ["registry-creds-ecr"; "registry-creds-gcr"; "registry-creds-dpr"])
  | _ => false
  end.

(** The three creation requests made of placeholders only. *)
Definition placeholder_requests : call_record :=
  [ CreateSecret_call "kube-system" "registry-creds-ecr"
      (list_to_map [("AWS_ACCESS_KEY_ID", "changeme");
                    ("AWS_SECRET_ACCESS_KEY", "changeme");
                    ("aws-account", "changeme");
                    ("aws-region", "changeme")])
      (list_to_map [("app", "registry-creds"); ("cloud", "ecr");
                    ("kubernetes.io/minikube-addons", "registry-creds")]);
    CreateSecret_call "kube-system" "registry-creds-gcr"
      (list_to_map [("application_default_credentials.json", "changeme")])
      (list_to_map [("app", "registry-creds"); ("cloud", "gcr");
                    ("kubernetes.io/minikube-addons", "registry-creds")]);
    CreateSecret_call "kube-system" "registry-creds-dpr"
      (list_to_map [("DOCKER_PRIVATE_REGISTRY_SERVER", "changeme");
                    ("DOCKER_PRIVATE_REGISTRY_USER", "changeme");
                    ("DOCKER_PRIVATE_REGISTRY_PASSWORD", "changeme")])
      (list_to_map [("app", "registry-creds"); ("cloud", "dpr");
                    ("kubernetes.io/minikube-addons", "registry-creds")]) ].

(** A creation request for a secret of the cloud [cloud], with nothing but
    placeholders in its data and the fixed labels. *)
Definition placeholder_request (cloud : string)
    (e : @event Addon drivers_Driver API SSHClient) : Prop :=
  match e with
  | CreateSecret_call namespace name data labels =>
      namespace = "kube-system"
      ∧ name = "registry-creds-" +:+ cloud
      ∧ map_Forall (λ _ v, v = "changeme") data
      ∧ labels !! "app" = Some "registry-creds"
      ∧ labels !! "cloud" = Some cloud
      ∧ is_Some (labels !! "kubernetes.io/minikube-addons")
  | _ => False
  end.

(** The message the toggle wraps a transport error with. *)
Definition wrap_message (enable : bool) (name : string) : string :=
  if enable then "Error transferring addon " +:+ name +:+ " to VM"
  else "Error deleting addon " +:+ name +:+ " from VM".

(** The three deletion requests of the cleanup. *)
Definition cleanup_requests : call_record :=
  [ DeleteSecret_call "kube-system" "registry-creds-ecr";
    DeleteSecret_call "kube-system" "registry-creds-gcr";
    DeleteSecret_call "kube-system" "registry-creds-dpr" ].

(** The names of the secrets whose creation is requested, in order. *)
Definition created_names (t : call_record) : list string :=
  omap (λ e, match e with CreateSecret_call _ name _ _ => Some name | _ => None end) t.

(** The warnings owed for the creation requests of [t] that the secret
    manager of [w] fails. *)
Definition owed_warnings (w : @World Addon drivers_Driver API SSHClient E)
    (t : call_record) : call_record :=
  flat_map (λ e, match e with
                 | CreateSecret_call namespace name data labels =>
                     if CreateSecret w namespace name data labels is Some _
                     then [Println (creation_warning name)] else []
                 | _ => []
                 end) t.

(** The same collaborators, with a secret manager that never fails to
    create a secret. *)
Definition creations_succeed (w : @World Addon drivers_Driver API SSHClient E)
  : @World Addon drivers_Driver API SSHClient E :=
  {| useVendoredDriver := useVendoredDriver w;
     GetBool := GetBool w;
     AskForYesNoConfirmation := AskForYesNoConfirmation w;
     AskForStaticValue := AskForStaticValue w;
     ReadFile := ReadFile w;
     CreateSecret := λ _ _ _ _, None;
     DeleteSecret := DeleteSecret w;
     NewAPIClient := NewAPIClient w;
     EnsureMinikubeRunningOrExit := EnsureMinikubeRunningOrExit w;
     Addons := Addons w;
     CheckIfApiExistsAndLoad := CheckIfApiExistsAndLoad w;
     NewSSHClient := NewSSHClient w;
     TransferAddon := TransferAddon w;
     DeleteAddon := DeleteAddon w |}.

End ToggleVocabulary.

(** The two halves of [EnableOrDisableAddon], named for the proofs: the
    secrets (lines 99-208) and the dispatch (lines 210-233), each as a
    function of the parsed flag; [EnableOrDisableAddon_halves] below shows
    that the toggle is the first followed by the second. *)
Section ToggleHalves.

Context {Addon drivers_Driver API SSHClient E : Type} `{error E}.
Variable w : @World Addon drivers_Driver API SSHClient E.

Definition secrets_half (enable : bool) (name : string) : M () :=
  if enable then
     if String.eqb name "registry-creds" then
       let posResponses := ["yes"; "y"] in
       let negResponses := ["no"; "n"] in
       enableAWSECR ← ask_yes_no w (LF +:+ "Do you want to enable AWS Elastic Container Registry?") posResponses negResponses;
       '(awsAccessID, awsAccessKey, awsRegion, awsAccount) ←
         (if enableAWSECR : bool then
            awsAccessID ← ask_value w "-- Enter AWS Access Key ID: ";
            awsAccessKey ← ask_value w "-- Enter AWS Secret Access Key: ";
            awsRegion ← ask_value w "-- Enter AWS Region: ";
            awsAccount ← ask_value w "-- Enter 12 digit AWS Account ID: ";
            mret (awsAccessID, awsAccessKey, awsRegion, awsAccount)
          else mret ("changeme", "changeme", "changeme", "changeme"));
       enableGCR ← ask_yes_no w (LF +:+ "Do you want to enable Google Container Registry?") posResponses negResponses;
       gcrApplicationDefaultCredentials ←
         (if enableGCR : bool then
            gcrPath ← ask_value w "-- Enter path to credentials (e.g. /home/user/.config/gcloud/application_default_credentials.json):";
            '(dat, err) ← read_file w gcrPath;
            match err with
            | Some _ =>
                println "Could not read file for application_default_credentials.json";;
                mret "changeme"
            | None => mret dat
            end
          else mret "changeme");
       enableDR ← ask_yes_no w (LF +:+ "Do you want to enable Docker Registry?") posResponses negResponses;
       '(dockerServer, dockerUser, dockerPass) ←
         (if enableDR : bool then
            dockerServer ← ask_value w "-- Enter docker registry server url: ";
            dockerUser ← ask_value w "-- Enter docker registry username: ";
            dockerPass ← ask_value w "-- Enter docker registry password: ";
            mret (dockerServer, dockerUser, dockerPass)
          else mret ("changeme", "changeme", "changeme"));
       err ← create_secret w "kube-system" "registry-creds-ecr"
               (list_to_map [("AWS_ACCESS_KEY_ID", awsAccessID);
                             ("AWS_SECRET_ACCESS_KEY", awsAccessKey);
                             ("aws-account", awsAccount);
                             ("aws-region", awsRegion)])
               (list_to_map [("app", "registry-creds");
                             ("cloud", "ecr");
                             ("kubernetes.io/minikube-addons", "registry-creds")]);
       (if err is Some _ then println "ERROR creating `registry-creds-ecr` secret" else mret ());;
       err ← create_secret w "kube-system" "registry-creds-gcr"
               (list_to_map [("application_default_credentials.json", gcrApplicationDefaultCredentials)])
               (list_to_map [("app", "registry-creds");
                             ("cloud", "gcr");
                             ("kubernetes.io/minikube-addons", "registry-creds")]);
       (if err is Some _ then println "ERROR creating `registry-creds-gcr` secret" else mret ());;
       err ← create_secret w "kube-system" "registry-creds-dpr"
               (list_to_map [("DOCKER_PRIVATE_REGISTRY_SERVER", dockerServer);
                             ("DOCKER_PRIVATE_REGISTRY_USER", dockerUser);
                             ("DOCKER_PRIVATE_REGISTRY_PASSWORD", dockerPass)])
               (list_to_map [("app", "registry-creds");
                             ("cloud", "dpr");
                             ("kubernetes.io/minikube-addons", "registry-creds")]);
       (if err is Some _ then println "ERROR creating `registry-creds-dpr` secret" else mret ())
     else mret ()
   else
     (* Cleanup existing secrets *)
     delete_secret w "kube-system" "registry-creds-ecr";;
     delete_secret w "kube-system" "registry-creds-gcr";;
     delete_secret w "kube-system" "registry-creds-dpr";;
     mret ().

Definition dispatch_half (enable : bool) (name : string)
  : M (option (E + withMessage E)) :=
  '(api, err) ← call (NewAPIClient_call (GetClientType w)) (NewAPIClient w (GetClientType w));
  match err with
  | Some e =>
      call (Fprintf_Stderr ("Error getting client: " +:+ Error e +:+ LF)) ();;
      os_Exit 1
  | None =>
      defer (call (Close_call api) ()) (
        ensured ← call (EnsureMinikubeRunningOrExit_call api 0)
                       (EnsureMinikubeRunningOrExit w api 0);
        match ensured with
        | Some code => os_Exit code
        | None =>
            let addon := Addons w !! name in (* validation done prior *)
            match err with
            | Some e => mret (Some (inl e))
            | None =>
                '(host, err) ← call (CheckIfApiExistsAndLoad_call api)
                                    (CheckIfApiExistsAndLoad w api);
                match host with
                | None => panic (* host.Driver on a nil host *)
                | Some host =>
                    if enable then
                      err ← transferAddonViaDriver w addon (Driver host);
                      match err with
                      | Some e => mret (Some (inr (Wrapf e ("Error transferring addon " +:+ name +:+ " to VM"))))
                      | None => mret None
                      end
                    else
                      err ← deleteAddonViaDriver w addon (Driver host);
                      match err with
                      | Some e => mret (Some (inr (Wrapf e ("Error deleting addon " +:+ name +:+ " from VM"))))
                      | None => mret None
                      end
                end
            end
        end)
  end.

End ToggleHalves.

(** The three typed mutators. *)
Definition mutators
  : list (MinikubeConfig → string → string → MinikubeConfig * option strconv.NumError) :=
  [SetString; SetInt; SetBool].

(** More of the record of calls. *)
Section CallVocabulary.

Context {Addon drivers_Driver API SSHClient : Type}.

Definition is_NewAPIClient (e : @event Addon drivers_Driver API SSHClient) : bool :=
  match e with NewAPIClient_call _ => true | _ => false end.

Definition is_Close (e : @event Addon drivers_Driver API SSHClient) : bool :=
  match e with Close_call _ => true | _ => false end.

(** Requests to the VM transport. *)
Definition is_transport_call (e : @event Addon drivers_Driver API SSHClient) : bool :=
  match e with TransferAddon_call _ _ | DeleteAddon_call _ _ => true | _ => false end.

(** Calls made on the cluster once the client is there. *)
Definition is_cluster_call (e : @event Addon drivers_Driver API SSHClient) : bool :=
  match e with
  | EnsureMinikubeRunningOrExit_call _ _ | CheckIfApiExistsAndLoad_call _
  | NewSSHClient_call _ | TransferAddon_call _ _ | DeleteAddon_call _ _ => true
  | _ => false
  end.

Definition is_confirmation (e : @event Addon drivers_Driver API SSHClient) : bool :=
  match e with AskForYesNoConfirmation_call _ _ _ => true | _ => false end.

(** The data of the creation requests for the secret [secret]. *)
Definition created_data (secret : string)
    (t : list (@event Addon drivers_Driver API SSHClient))
  : list (gmap string string) :=
  omap (λ e, match e with
             | CreateSecret_call _ name data _ =>
                 if String.eqb name secret then Some data else None
             | _ => None
             end) t.

End CallVocabulary.

(** ** Sample inputs *)

(** A running cluster with the dashboard add-on registered, an operator
    who declines every confirmation, and a secret manager that fails on
    the GCR secret. *)
Definition sample_world : @World (list string) string () () errorString :=
  {| useVendoredDriver := "use-vendored-driver";
     GetBool := λ _, false;
     AskForYesNoConfirmation := λ _ _ _, false;
     AskForStaticValue := λ _, "value";
     ReadFile := λ _, (EmptyString, Some {| errorString_s := "no such file" |});
     CreateSecret := λ _ name _ _,
       if String.eqb name "registry-creds-gcr"
       then Some {| errorString_s := "secrets is forbidden" |} else None;
     DeleteSecret := λ _ _, None;
     NewAPIClient := λ _, ((), None);
     EnsureMinikubeRunningOrExit := λ _ _, None;
     Addons := {["dashboard" := ["dashboard-rc.yaml"; "dashboard-svc.yaml"]]};
     CheckIfApiExistsAndLoad := λ _, (Some {| Driver := "virtualbox" |}, None);
     NewSSHClient := λ _, ((), None);
     TransferAddon := λ _ _, None;
     DeleteAddon := λ _ _, None |}.

Definition sample_settings : list (Setting () errorString) :=
  [ {| name := "cpus"; set := None; validations := [] |};
    {| name := "memory"; set := None; validations := [] |} ].

(** Validators in the style of the package: one that accepts, two that
    reject with a message, and a callback that counts its calls. *)
Definition accepts : @setFn nat errorString := λ _ _ n, (S n, None).
Definition rejects (text : string) : @setFn nat errorString :=
  λ _ _ n, (S n, Some {| errorString_s := text |}).
Definition sample_fns : list (@setFn nat errorString) :=
  [rejects "not a number"; accepts; rejects "too small"].

(** The sample world with some collaborators replaced: the operator's
    answers to the confirmations, the errors of the client factory, of
    the SSH client and of the transport, the exit status of the cluster
    guard, and the host that is loaded. *)
Definition sample_world_with (confirm : string → bool)
    (client_err ssh_err transport_err : option errorString)
    (guard : option Z) (host : option (@Host string))
  : @World (list string) string () () errorString :=
  {| useVendoredDriver := useVendoredDriver sample_world;
     GetBool := GetBool sample_world;
     AskForYesNoConfirmation := λ s _ _, confirm s;
     AskForStaticValue := AskForStaticValue sample_world;
     ReadFile := ReadFile sample_world;
     CreateSecret := CreateSecret sample_world;
     DeleteSecret := DeleteSecret sample_world;
     NewAPIClient := λ _, ((), client_err);
     EnsureMinikubeRunningOrExit := λ _ _, guard;
     Addons := Addons sample_world;
     CheckIfApiExistsAndLoad := λ _, (host, None);
     NewSSHClient := λ _, ((), ssh_err);
     TransferAddon := λ _ _, transport_err;
     DeleteAddon := λ _ _, transport_err |}.


(** * Properties *)

(** Membership in a list of literals, settled by evaluation. *)
Ltac list_mem := apply (bool_decide_unpack _); vm_compute; exact I.

(** ** Typed mutators *)

Lemma ParseBool_true (val : string) :
  val ∈ true_lexemes → strconv.ParseBool val = (true, None).
Proof.
  unfold true_lexemes. intros Hin.
  repeat (apply elem_of_cons in Hin as [-> | Hin]; [reflexivity |]).
  by apply elem_of_nil in Hin.
Qed.

Lemma ParseBool_false (val : string) :
  val ∈ false_lexemes → strconv.ParseBool val = (false, None).
Proof.
  unfold false_lexemes. intros Hin.
  repeat (apply elem_of_cons in Hin as [-> | Hin]; [reflexivity |]).
  by apply elem_of_nil in Hin.
Qed.

Lemma ParseBool_other (val : string) :
  val ∉ (true_lexemes ++ false_lexemes)%list →
  strconv.ParseBool val = (false, Some (strconv.syntaxError val)).
Proof.
  intros Hnot. unfold strconv.ParseBool.
  assert (Hne : ∀ l, l ∈ (true_lexemes ++ false_lexemes)%list → String.eqb val l = false).
  { intros l Hl. apply String.eqb_neq. by intros ->. }
  rewrite !Hne; [reflexivity | ..]; unfold true_lexemes, false_lexemes; simpl;
    set_solver.
Qed.

(** Whatever [ParseBool] answers, it answers [false] together with an
    error or a value without one. *)
Lemma ParseBool_error (val : string) (b : bool) (e : strconv.NumError) :
  strconv.ParseBool val = (b, Some e) → b = false ∧ e = strconv.syntaxError val.
Proof.
  unfold strconv.ParseBool. repeat case_match; naive_solver.
Qed.

(** C7: [SetBool] accepts exactly the twelve boolean literals.  A literal
    of the true group stores [true] under the name, one of the false group
    stores [false], and both return nil; every other string returns the
    syntax error citing it and the store stays as it was. *)
Theorem SetBool_lexemes (m : MinikubeConfig) (name val : string) :
  (val ∈ true_lexemes → SetBool m name val = (<[name := VBool true]> m, None))
  ∧ (val ∈ false_lexemes → SetBool m name val = (<[name := VBool false]> m, None))
  ∧ (val ∉ (true_lexemes ++ false_lexemes)%list →
     SetBool m name val = (m, Some (strconv.syntaxError val))).
Proof.
  unfold SetBool. split; [| split]; intros Hval.
  - by rewrite ParseBool_true.
  - by rewrite ParseBool_false.
  - by rewrite ParseBool_other.
Qed.

Lemma SetBool_lexemes_witness :
  SetBool ∅ "WantReportError" "T" = (<["WantReportError" := VBool true]> ∅, None)
  ∧ SetBool ∅ "WantReportError" "0" = (<["WantReportError" := VBool false]> ∅, None)
  ∧ SetBool ∅ "WantReportError" "maybe" = (∅, Some (strconv.syntaxError "maybe")).
Proof.
  destruct (SetBool_lexemes ∅ "WantReportError" "T") as [Ht _].
  destruct (SetBool_lexemes ∅ "WantReportError" "0") as (_ & Hf & _).
  destruct (SetBool_lexemes ∅ "WantReportError" "maybe") as (_ & _ & Hn).
  split; [| split].
  - apply Ht. list_mem.
  - apply Hf. list_mem.
  - apply Hn. list_mem.
Defined.

(** *** [Atoi] reads decimal literals *)

Lemma isDigit_digit (c : ascii) :
  strconv.isDigit c = true → 0 ≤ strconv.digit c ≤ 9.
Proof.
  unfold strconv.isDigit, strconv.digit.
  intros [H1 H2]%andb_prop. lia.
Qed.

Lemma decimal_value_nonneg (s : string) :
  all_digits s = true → 0 ≤ decimal_value s.
Proof.
  induction s as [| c s IH]; simpl; [lia |].
  intros [Hc Hs]%andb_prop. apply isDigit_digit in Hc.
  specialize (IH Hs).
  assert (0 < 10 ^ Z.of_nat (String.length s)) by (apply Z.pow_pos_nonneg; lia).
  nia.
Qed.

(** With every byte a digit and no overflow, the loop of [ParseUint]
    continues the number [n] it was given by the digits it reads. *)
Lemma ParseUint_loop_value (s : string) : ∀ n : Z,
  all_digits s = true → 0 ≤ n →
  n * 10 ^ Z.of_nat (String.length s) + decimal_value s ≤ strconv.maxUint64 →
  strconv.ParseUint_loop s n
  = inl (n * 10 ^ Z.of_nat (String.length s) + decimal_value s).
Proof.
  induction s as [| c s IH]; intros n Hd Hn Hle; simpl in *.
  - f_equal. lia.
  - apply andb_prop in Hd as [Hc Hs]. rewrite Hc. simpl.
    pose proof (isDigit_digit c Hc) as Hdc.
    pose proof (decimal_value_nonneg s Hs) as Hv.
    set (p := 10 ^ Z.of_nat (String.length s)) in *.
    assert (Hp : 0 < p) by (apply Z.pow_pos_nonneg; lia).
    assert (Hpow : 10 ^ Z.of_nat (S (String.length s)) = 10 * p).
    { rewrite Nat2Z.inj_succ, Z.pow_succ_r by lia. reflexivity. }
    rewrite Hpow in *.
    assert (Hn1 : n * 10 + strconv.digit c ≤ strconv.maxUint64) by nia.
    assert (Hcut : (strconv.maxUint64 / 10 + 1 <=? n) = false).
    { apply Z.leb_gt. unfold strconv.maxUint64 in *.
      change (2 ^ 64 - 1) with 18446744073709551615 in *.
      change (18446744073709551615 / 10) with 1844674407370955161. lia. }
    rewrite Hcut.
    assert (Hmax : (strconv.maxUint64 <? n * 10 + strconv.digit c) = false)
      by (apply Z.ltb_ge; lia).
    rewrite Hmax.
    rewrite IH; [f_equal; lia | assumption | lia | lia].
Qed.

Lemma ParseUint_value (s : string) :
  unsigned_literal s = true → decimal_value s ≤ strconv.maxUint64 →
  strconv.ParseUint s = inl (decimal_value s).
Proof.
  destruct s as [| c s]; [discriminate |].
  unfold unsigned_literal, strconv.ParseUint. intros Hd Hle.
  rewrite ParseUint_loop_value by (try assumption; lia).
  f_equal.
Qed.








(** C10: a mutator that succeeds touches the entry of the given name only:
    every other key maps to what it mapped to before the call. *)
Theorem mutators_frame (m m' : MinikubeConfig) (name val k : string) :
  k ≠ name →
  (SetString m name val = (m', None) → m' !! k = m !! k)
  ∧ (SetInt m name val = (m', None) → m' !! k = m !! k)
  ∧ (SetBool m name val = (m', None) → m' !! k = m !! k).
Proof.
  intros Hk. unfold SetString, SetInt, SetBool. split; [| split].
  - intros [= <-]. by rewrite lookup_insert_ne.
  - destruct (strconv.Atoi val) as [i [e |]]; [discriminate |].
    intros [= <-]. by rewrite lookup_insert_ne.
  - destruct (strconv.ParseBool val) as [b [e |]]; [discriminate |].
    intros [= <-]. by rewrite lookup_insert_ne.
Qed.

Lemma mutators_frame_witness :
  let m : MinikubeConfig := {["memory" := VInt 2048]} in
  <["cpus" := VString "4"]> m !! "memory" = m !! "memory"
  ∧ <["cpus" := VInt 4]> m !! "memory" = m !! "memory"
  ∧ <["cpus" := VBool true]> m !! "memory" = m !! "memory".
Proof.
  intros m.
  assert (Hk : "memory" ≠ "cpus") by discriminate.
  split; [| split].
  - by apply (proj1 (mutators_frame m (<["cpus" := VString "4"]> m)
                       "cpus" "4" "memory" Hk)).
  - by apply (proj1 (proj2 (mutators_frame m (<["cpus" := VInt 4]> m)
                              "cpus" "4" "memory" Hk))).
  - by apply (proj2 (proj2 (mutators_frame m (<["cpus" := VBool true]> m)
                              "cpus" "true" "memory" Hk))).
Defined.

(** ** The setting registry *)

Lemma append_assoc (a b c : string) : (a +:+ b) +:+ c = a +:+ b +:+ c.
Proof.
  induction a as [| x a IH]; [reflexivity |].
  change (String x ((a +:+ b) +:+ c) = String x (a +:+ b +:+ c)). by rewrite IH.
Qed.

Lemma append_nil_r (a : string) : a +:+ EmptyString = a.
Proof.
  induction a as [| x a IH]; [reflexivity |].
  change (String x (a +:+ EmptyString) = String x a). by rewrite IH.
Qed.

Lemma contains_refl (t : string) : contains t t.
Proof. exists EmptyString, EmptyString. by rewrite append_nil_r. Qed.

Lemma contains_app_l (a s t : string) : contains s t → contains (a +:+ s) t.
Proof.
  intros (pre & post & ->). exists (a +:+ pre), post. by rewrite append_assoc.
Qed.

Lemma contains_app_r (a s t : string) : contains s t → contains (s +:+ a) t.
Proof.
  intros (pre & post & ->). exists pre, (post +:+ a).
  by rewrite !append_assoc.
Qed.

Lemma findSetting_loop_found {St E} (ss : list (Setting St E)) (name0 : string) :
  name0 ∈ name <$> ss →
  ∃ s, findSetting_loop name0 ss = (s, None) ∧ s ∈ ss ∧ name s = name0.
Proof.
  induction ss as [| s ss IH]; simpl.
  - intros Hin. by apply elem_of_nil in Hin.
  - intros Hin. destruct (String.eqb_spec name0 (name s)) as [-> | Hne].
    + exists s. split; [reflexivity |]. split; [left | reflexivity].
    + apply elem_of_cons in Hin as [Heq | Hin]; [done |].
      destruct (IH Hin) as (s' & Hfind & Hs' & Hname).
      exists s'. split; [assumption |]. split; [by right | assumption].
Qed.

Lemma findSetting_loop_absent {St E} (ss : list (Setting St E)) (name0 : string) :
  name0 ∉ name <$> ss →
  findSetting_loop name0 ss = (Setting_zero, Some (not_found name0)).
Proof.
  induction ss as [| s ss IH]; simpl; [reflexivity |].
  intros Hnot. apply not_elem_of_cons in Hnot as [Hne Hnot].
  destruct (String.eqb_spec name0 (name s)); [done | by apply IH].
Qed.

(** C9: for a name some setting of the registry bears, [findSetting]
    returns a setting of the registry with that name and a nil error; for
    a name none bears, it returns the zero [Setting] and the error
    "Property name ... not found", whose text carries the name. *)
Theorem findSetting_spec {St E} (settings : list (Setting St E)) (name0 : string) :
  (name0 ∈ name <$> settings →
   ∃ s, findSetting settings name0 = (s, None) ∧ s ∈ settings ∧ name s = name0)
  ∧ (name0 ∉ name <$> settings →
     findSetting settings name0 = (Setting_zero, Some (not_found name0))
     ∧ contains (Error (not_found name0)) name0).
Proof.
  unfold findSetting. split.
  - apply findSetting_loop_found.
  - intros Hnot. split; [by apply findSetting_loop_absent |].
    unfold not_found, Error, errorString_error. simpl.
    apply contains_app_l, contains_app_r, contains_refl.
Qed.

Lemma findSetting_spec_witness :
  (∃ s, findSetting sample_settings "memory" = (s, None)
        ∧ s ∈ sample_settings ∧ name s = "memory")
  ∧ findSetting sample_settings "disk" = (Setting_zero, Some (not_found "disk"))
  ∧ contains (Error (not_found "disk")) "disk".
Proof.
  split.
  - apply (proj1 (findSetting_spec sample_settings "memory")). list_mem.
  - apply (proj2 (findSetting_spec sample_settings "disk")). list_mem.
Defined.

(** ** The setting applier *)

Section ApplierProperties.

Context {St E : Type} `{error E}.

Lemma run_loop_spec (name value : string) (fns : list (@setFn St E)) :
  ∀ (st : St) (errors : list E),
  run_loop name value fns st errors
  = (called_in_turn name value fns st, (errors ++ failures name value fns st)%list).
Proof.
  unfold called_in_turn, failures.
  induction fns as [| fn fns IH]; intros st errors; simpl.
  - by rewrite app_nil_r.
  - destruct (fn name value st) as [st' [e |]]; simpl.
    + rewrite IH. by rewrite <- app_assoc.
    + apply IH.
Qed.

Lemma returned_length (name value : string) (fns : list (@setFn St E)) :
  ∀ st : St, length (returned name value fns st) = length fns.
Proof. induction fns as [| fn fns IH]; intros st; simpl; [| rewrite IH]; done. Qed.

Lemma join_errors_contains (errors : list E) (e : E) :
  e ∈ errors → contains (join_errors errors) (Error e).
Proof.
  induction errors as [| e0 rest IH]; intros Hin.
  - by apply elem_of_nil in Hin.
  - apply elem_of_cons in Hin as [-> | Hin].
    + destruct rest; simpl; [apply contains_refl |].
      apply contains_app_r, contains_refl.
    + destruct rest as [| e1 rest]; [by apply elem_of_nil in Hin |].
      change (contains (Error e0 +:+ " " +:+ join_errors (e1 :: rest)) (Error e)).
      by apply contains_app_l, contains_app_l, IH.
Qed.

(** C6: [run] calls every function of [fns], once and in order, whatever
    the earlier ones returned.  It returns nil when none failed; otherwise
    it returns one error made of all the failures, and the text of each
    failure occurs in the text of that error. *)
Theorem run_collects (name value : string) (fns : list (@setFn St E)) (st : St) :
  run name value fns st
  = (called_in_turn name value fns st,
     match failures name value fns st with
     | [] => None
     | errors => Some (Errorf_v errors)
     end)
  ∧ length (returned name value fns st) = length fns
  ∧ ∀ e, e ∈ failures name value fns st →
         contains (Error (Errorf_v (failures name value fns st))) (Error e).
Proof.
  split; [| split].
  - unfold run. rewrite run_loop_spec. simpl.
    by destruct (failures name value fns st).
  - apply returned_length.
  - intros e He. unfold Errorf_v, Error at 1, errorString_error. simpl.
    by apply contains_app_l, contains_app_r, join_errors_contains.
Qed.

End ApplierProperties.

Lemma run_collects_witness :
  run "cpus" "x" sample_fns 0%nat
  = (3%nat, Some {| errorString_s := "[not a number too small]" |})
  ∧ contains "[not a number too small]" "not a number"
  ∧ contains "[not a number too small]" "too small".
Proof.
  destruct (run_collects "cpus" "x" sample_fns 0%nat) as (Hrun & _ & Hall).
  split; [exact Hrun |]. split.
  - apply (Hall {| errorString_s := "not a number" |}). left.
  - apply (Hall {| errorString_s := "too small" |}). right. left.
Defined.

(** ** The add-on toggle *)

Section ToggleProperties.

Context {Addon drivers_Driver API SSHClient E : Type} `{error E}.
Implicit Types w : @World Addon drivers_Driver API SSHClient E.

Lemma bind_normal {A B} (m : @M Addon drivers_Driver API SSHClient A)
    (f : A → @M Addon drivers_Driver API SSHClient B) (a : A) :
  outcome m = Normal a →
  outcome (m ≫= f) = outcome (f a)
  ∧ trace (m ≫= f) = (trace m ++ trace (f a))%list.
Proof.
  destruct m as [o t]. simpl. intros ->.
  unfold mbind, M_bind, after. by destruct (f a).
Qed.

Lemma EnableOrDisableAddon_halves w (name val : string) :
  EnableOrDisableAddon w name val
  = secrets_half w (strconv.ParseBool val).1 name
    ≫= λ _, dispatch_half w (strconv.ParseBool val).1 name.
Proof.
  unfold EnableOrDisableAddon. destruct (strconv.ParseBool val) as [enable err].
  reflexivity.
Qed.

Ltac unfold_calls :=
  unfold secrets_half, dispatch_half, transferAddonViaDriver, deleteAddonViaDriver,
    ask_yes_no, ask_value, read_file, println, create_secret, delete_secret,
    defer, call, os_Exit, panic;
  unfold mbind, M_bind, mret, M_ret, after.

Ltac reduce := cbn -[list_to_map String.append].

Ltac oracle_step :=
  match goal with
  | |- context [AskForYesNoConfirmation ?w ?s ?p ?n] =>
      destruct (AskForYesNoConfirmation w s p n)
  | |- context [ReadFile ?w ?f] => destruct (ReadFile w f) as [? [?|]]
  | |- context [CreateSecret ?w ?a ?b ?c ?d] => destruct (CreateSecret w a b c d)
  | |- context [NewAPIClient ?w ?t] => destruct (NewAPIClient w t) as [? [?|]]
  | |- context [EnsureMinikubeRunningOrExit ?w ?a ?c] =>
      destruct (EnsureMinikubeRunningOrExit w a c)
  | |- context [CheckIfApiExistsAndLoad ?w ?a] =>
      destruct (CheckIfApiExistsAndLoad w a) as [[?|] ?]
  | |- context [NewSSHClient ?w ?d] => destruct (NewSSHClient w d) as [? [?|]]
  | |- context [TransferAddon ?w ?a ?c] => destruct (TransferAddon w a c)
  | |- context [DeleteAddon ?w ?a ?c] => destruct (DeleteAddon w a c)
  end.

Ltac oracle_cases := repeat (oracle_step; reduce).

Lemma secrets_half_returns w (enable : bool) (name : string) :
  outcome (secrets_half w enable name) = Normal ().
Proof.
  unfold_calls.
  destruct enable; [destruct (String.eqb name "registry-creds") |]; try reflexivity.
  oracle_cases; reflexivity.
Qed.

Lemma toggle_outcome w (name val : string) :
  outcome (EnableOrDisableAddon w name val)
  = outcome (dispatch_half w (strconv.ParseBool val).1 name).
Proof.
  rewrite EnableOrDisableAddon_halves.
  apply (proj1 (bind_normal _ (λ _, dispatch_half w (strconv.ParseBool val).1 name) ()
                  (secrets_half_returns w _ _))).
Qed.

Lemma toggle_trace w (name val : string) :
  trace (EnableOrDisableAddon w name val)
  = (trace (secrets_half w (strconv.ParseBool val).1 name)
     ++ trace (dispatch_half w (strconv.ParseBool val).1 name))%list.
Proof.
  rewrite EnableOrDisableAddon_halves.
  apply (proj2 (bind_normal _ (λ _, dispatch_half w (strconv.ParseBool val).1 name) ()
                  (secrets_half_returns w _ _))).
Qed.

(** The dispatch asks nothing of the operator and nothing of the secret
    manager. *)
Lemma dispatch_half_quiet w (enable : bool) (name : string) :
  let t := trace (dispatch_half w enable name) in
  List.filter is_collector_call t = []
  ∧ List.filter is_CreateSecret t = []
  ∧ List.filter is_DeleteSecret t = []
  ∧ List.filter (λ e, negb (is_creation_warning e)) t = t
  ∧ List.filter is_creation_warning t = []
  ∧ owed_warnings w t = []
  ∧ created_names t = [].
Proof.
  unfold_calls. destruct enable; oracle_cases; done.
Qed.

Lemma dispatch_half_starts w (enable : bool) (name : string) :
  ∃ rest, trace (dispatch_half w enable name)
          = NewAPIClient_call (GetClientType w) :: rest.
Proof.
  unfold_calls. destruct (NewAPIClient w (GetClientType w)) as [api [e |]].
  - eexists. reflexivity.
  - match goal with |- context [match ?m with mk o t => _ end] => destruct m end.
    eexists. reflexivity.
Qed.

Lemma dispatch_half_wraps w (enable : bool) (name : string) e :
  outcome (dispatch_half w enable name) = Normal (Some e) →
  ∃ c, e = inr (Wrapf c (wrap_message enable name)).
Proof.
  unfold_calls. destruct enable; oracle_cases; intros [=]; subst; eauto.
Qed.

Lemma dispatch_half_healthy w (enable : bool) (name : string) api host err client :
  NewAPIClient w (GetClientType w) = (api, None) →
  EnsureMinikubeRunningOrExit w api 0 = None →
  CheckIfApiExistsAndLoad w api = (Some host, err) →
  NewSSHClient w (Driver host) = (client, None) →
  dispatch_half w enable name
  = mk (Normal ((λ e, inr (Wrapf e (wrap_message enable name)))
                <$> (if enable then TransferAddon w (Addons w !! name) client
                     else DeleteAddon w (Addons w !! name) client)))
       [ NewAPIClient_call (GetClientType w);
         EnsureMinikubeRunningOrExit_call api 0;
         CheckIfApiExistsAndLoad_call api;
         NewSSHClient_call (Driver host);
         (if enable then TransferAddon_call (Addons w !! name) client
          else DeleteAddon_call (Addons w !! name) client);
         Close_call api ].
Proof.
  intros Hnew Hens Hload Hssh. unfold_calls.
  rewrite Hnew. reduce. rewrite Hens, Hload. reduce.
  destruct enable; rewrite Hssh; reduce; oracle_cases; reflexivity.
Qed.


Lemma secrets_half_declined w :
  (∀ s pos neg, AskForYesNoConfirmation w s pos neg = false) →
  List.filter is_CreateSecret (trace (secrets_half w true "registry-creds"))
  = placeholder_requests.
Proof.
  intros Hno. unfold_calls. reduce. rewrite !Hno. reduce.
  oracle_cases; reflexivity.
Qed.

Lemma placeholder_requests_shape :
  Forall2 placeholder_request ["ecr"; "gcr"; "dpr"]
    (@placeholder_requests Addon drivers_Driver API SSHClient).
Proof.
  unfold placeholder_requests.
  repeat constructor; try reflexivity; try (by eexists);
    by apply (bool_decide_unpack _); vm_compute.
Qed.

Ltac oracle_step_eqn :=
  match goal with
  | |- context [AskForYesNoConfirmation ?w ?s ?p ?n] =>
      destruct (AskForYesNoConfirmation w s p n)
  | |- context [ReadFile ?w ?f] => destruct (ReadFile w f) as [? [?|]]
  | |- context [CreateSecret ?w ?a ?b ?c ?d] =>
      destruct (CreateSecret w a b c d) eqn:?
  end.

Ltac use_creations :=
  repeat match goal with
         | Hc : CreateSecret _ _ _ _ _ = _ |- _ => rewrite Hc; clear Hc
         end.

Ltac reduce_calls :=
  cbn -[list_to_map String.append is_creation_warning owed_warnings
        created_names List.filter].

Lemma secrets_half_best_effort w (enable : bool) (name : string) :
  let t := trace (secrets_half w enable name) in
  List.filter (λ e, negb (is_creation_warning e)) t
  = trace (secrets_half (creations_succeed w) enable name)
  ∧ List.filter is_creation_warning t = owed_warnings w t
  ∧ (enable = true → name = "registry-creds" →
     created_names t
     = ["registry-creds-ecr"; "registry-creds-gcr"; "registry-creds-dpr"]).
Proof.
  unfold_calls. unfold creations_succeed.
  destruct enable; [destruct (String.eqb_spec name "registry-creds") |];
    reduce_calls; [| done | done].
  repeat (oracle_step_eqn; reduce_calls).
  all: cbn [owed_warnings flat_map app]; use_creations.
  all: split; [reflexivity | split; [reflexivity | intros; reflexivity]].
Qed.

(** C4: on the disable path the toggle makes no call of the credential
    collector and no secret-create request; its secret-delete requests
    are exactly the three for registry-creds-ecr, registry-creds-gcr and
    registry-creds-dpr, whatever the add-on name. *)
Theorem disable_only_deletes w (name val : string) :
  (strconv.ParseBool val).1 = false →
  let t := trace (EnableOrDisableAddon w name val) in
  List.filter is_collector_call t = []
  ∧ List.filter is_CreateSecret t = []
  ∧ List.filter is_DeleteSecret t = cleanup_requests.
Proof.
  intros Hoff t. subst t. rewrite toggle_trace, Hoff, !List.filter_app.
  destruct (dispatch_half_quiet w false name) as (-> & -> & -> & _).
  split_and!; reflexivity.
Qed.

(** C2: a flag that is no boolean literal does not stop the toggle.  It
    behaves as on "false": it requests the deletion of the three secrets,
    goes on to acquire the client, returns no error other than a wrapped
    deletion error, and with a client, a running cluster, a host and an
    SSH client it asks the transport to delete the payload. *)
Theorem parse_failure_disables w (name val : string) :
  val ∉ (true_lexemes ++ false_lexemes)%list →
  let r := EnableOrDisableAddon w name val in
  r = EnableOrDisableAddon w name "false"
  ∧ (∃ rest, trace r
             = (cleanup_requests ++ NewAPIClient_call (GetClientType w) :: rest)%list)
  ∧ (∀ e, outcome r = Normal (Some e) →
          ∃ c, e = inr (Wrapf c ("Error deleting addon " +:+ name +:+ " from VM")))
  ∧ (∀ api host err client,
       NewAPIClient w (GetClientType w) = (api, None) →
       EnsureMinikubeRunningOrExit w api 0 = None →
       CheckIfApiExistsAndLoad w api = (Some host, err) →
       NewSSHClient w (Driver host) = (client, None) →
       DeleteAddon_call (Addons w !! name) client ∈ trace r).
Proof.
  intros Hval r. subst r.
  assert (Hoff : (strconv.ParseBool val).1 = false) by by rewrite ParseBool_other.
  split_and!.
  - rewrite !EnableOrDisableAddon_halves, Hoff. reflexivity.
  - rewrite toggle_trace, Hoff.
    destruct (dispatch_half_starts w false name) as [rest ->]. by exists rest.
  - intros e. rewrite toggle_outcome, Hoff. apply dispatch_half_wraps.
  - intros api host err client Hnew Hens Hload Hssh.
    rewrite toggle_trace, Hoff.
    rewrite (dispatch_half_healthy w false name api host err client) by assumption.
    apply elem_of_app. right. simpl. set_solver.
Qed.

(** C1, as the code has it: the lookup of the add-on is not checked.  For
    a name the registry lacks, once the client, the running cluster, the
    host and the SSH client are there, the toggle hands the nil descriptor
    to the transport and returns what the transport returns: nil, or its
    error wrapped with the add-on name. *)
Theorem absent_addon_dispatched w (name val : string) api host err client :
  Addons w !! name = None →
  NewAPIClient w (GetClientType w) = (api, None) →
  EnsureMinikubeRunningOrExit w api 0 = None →
  CheckIfApiExistsAndLoad w api = (Some host, err) →
  NewSSHClient w (Driver host) = (client, None) →
  let r := EnableOrDisableAddon w name val in
  let enable := (strconv.ParseBool val).1 in
  (if enable then TransferAddon_call None client
   else DeleteAddon_call None client) ∈ trace r
  ∧ outcome r
    = Normal ((λ e, inr (Wrapf e (wrap_message enable name)))
              <$> (if enable then TransferAddon w None client
                   else DeleteAddon w None client)).
Proof.
  intros Habsent Hnew Hens Hload Hssh r enable. subst r enable.
  rewrite toggle_trace, toggle_outcome.
  rewrite (dispatch_half_healthy w _ name api host err client) by assumption.
  rewrite Habsent. split; [| reflexivity].
  apply elem_of_app. right. simpl. set_solver.
Qed.

(** C3: enabling registry-creds with every confirmation declined makes
    exactly three secret-create requests, for registry-creds-ecr,
    registry-creds-gcr and registry-creds-dpr in kube-system; every value
    of their data is "changeme", and each carries the labels app =
    registry-creds, cloud = ecr, gcr or dpr, and the add-on marker. *)
Theorem enable_declined_placeholders w (val : string) :
  val ∈ true_lexemes →
  (∀ s pos neg, AskForYesNoConfirmation w s pos neg = false) →
  List.filter is_CreateSecret (trace (EnableOrDisableAddon w "registry-creds" val))
  = placeholder_requests
  ∧ Forall2 placeholder_request ["ecr"; "gcr"; "dpr"]
      (@placeholder_requests Addon drivers_Driver API SSHClient).
Proof.
  intros Hval Hno. split; [| apply placeholder_requests_shape].
  assert (Hon : (strconv.ParseBool val).1 = true) by by rewrite ParseBool_true.
  rewrite toggle_trace, Hon, List.filter_app.
  destruct (dispatch_half_quiet w true "registry-creds") as (_ & -> & _).
  rewrite app_nil_r. by apply secrets_half_declined.
Qed.

(** C5: on the enable path a failing secret creation changes nothing but
    the warnings.  The toggle ends as it does with a secret manager that
    never fails, and makes the same calls once the warnings are set
    aside; the warnings printed are those owed for the failed requests;
    and for registry-creds the three creations are all requested. *)
Theorem creation_failures_not_fatal w (name val : string) :
  val ∈ true_lexemes →
  let r := EnableOrDisableAddon w name val in
  let r' := EnableOrDisableAddon (creations_succeed w) name val in
  outcome r = outcome r'
  ∧ List.filter (λ e, negb (is_creation_warning e)) (trace r) = trace r'
  ∧ List.filter is_creation_warning (trace r) = owed_warnings w (trace r)
  ∧ (name = "registry-creds" →
     created_names (trace r)
     = ["registry-creds-ecr"; "registry-creds-gcr"; "registry-creds-dpr"]).
Proof.
  intros Hval r r'. subst r r'.
  assert (Hon : (strconv.ParseBool val).1 = true) by by rewrite ParseBool_true.
  rewrite !toggle_outcome, !toggle_trace, Hon.
  change (dispatch_half (creations_succeed w) true name)
    with (dispatch_half w true name).
  destruct (secrets_half_best_effort w true name) as (Hsame & Howed & Hnames).
  destruct (dispatch_half_quiet w true name) as (_ & _ & _ & Hkeep & Hquiet & Hnone & Hnot).
  unfold owed_warnings, created_names in *.
  rewrite !List.filter_app, flat_map_app, omap_app.
  rewrite Hsame, Hkeep, Howed, Hquiet, Hnone, Hnot.
  split_and!; try reflexivity.
  - intros ->. rewrite app_nil_r. by apply Hnames.
Qed.

(** *** The transport helpers *)

(** X1: [transferAddonViaDriver] and [deleteAddonViaDriver] first ask for
    an SSH client.  When that fails they return its error and make no
    transport request; otherwise they make exactly one request, for the
    descriptor they were given, and return what it returns. *)
Theorem via_driver_calls w (addon : option Addon) (d : drivers_Driver) :
  let '(client, err) := NewSSHClient w d in
  match err with
  | Some e =>
      transferAddonViaDriver w addon d = mk (Normal (Some e)) [NewSSHClient_call d]
      ∧ deleteAddonViaDriver w addon d = mk (Normal (Some e)) [NewSSHClient_call d]
  | None =>
      transferAddonViaDriver w addon d
      = mk (Normal (TransferAddon w addon client))
           [NewSSHClient_call d; TransferAddon_call addon client]
      ∧ deleteAddonViaDriver w addon d
        = mk (Normal (DeleteAddon w addon client))
             [NewSSHClient_call d; DeleteAddon_call addon client]
  end.
Proof.
  unfold_calls. destruct (NewSSHClient w d) as [client [e |]]; [done |].
  by destruct (TransferAddon w addon client), (DeleteAddon w addon client).
Qed.

(** *** How the toggle ends *)

Lemma dispatch_half_paths w (enable : bool) (name : string) :
  let '(api, err) := NewAPIClient w (GetClientType w) in
  match err with
  | Some e =>
      dispatch_half w enable name
      = mk (Exit 1)
           [ NewAPIClient_call (GetClientType w);
             Fprintf_Stderr ("Error getting client: " +:+ Error e +:+ LF) ]
  | None =>
      match EnsureMinikubeRunningOrExit w api 0 with
      | Some code =>
          dispatch_half w enable name
          = mk (Exit code)
               [ NewAPIClient_call (GetClientType w);
                 EnsureMinikubeRunningOrExit_call api 0 ]
      | None =>
          match CheckIfApiExistsAndLoad w api with
          | (None, _) =>
              dispatch_half w enable name
              = mk Panic
                   [ NewAPIClient_call (GetClientType w);
                     EnsureMinikubeRunningOrExit_call api 0;
                     CheckIfApiExistsAndLoad_call api;
                     Close_call api ]
          | (Some host, _) =>
              match NewSSHClient w (Driver host) with
              | (_, Some e) =>
                  dispatch_half w enable name
                  = mk (Normal (Some (inr (Wrapf e (wrap_message enable name)))))
                       [ NewAPIClient_call (GetClientType w);
                         EnsureMinikubeRunningOrExit_call api 0;
                         CheckIfApiExistsAndLoad_call api;
                         NewSSHClient_call (Driver host);
                         Close_call api ]
              | (client, None) =>
                  dispatch_half w enable name
                  = mk (Normal ((λ e, inr (Wrapf e (wrap_message enable name)))
                                <$> (if enable
                                     then TransferAddon w (Addons w !! name) client
                                     else DeleteAddon w (Addons w !! name) client)))
                       [ NewAPIClient_call (GetClientType w);
                         EnsureMinikubeRunningOrExit_call api 0;
                         CheckIfApiExistsAndLoad_call api;
                         NewSSHClient_call (Driver host);
                         (if enable
                          then TransferAddon_call (Addons w !! name) client
                          else DeleteAddon_call (Addons w !! name) client);
                         Close_call api ]
              end
          end
      end
  end.
Proof.
  unfold_calls. destruct enable; oracle_cases; reflexivity.
Qed.


(** What the first half never does, and the confirmations it asks. *)
Lemma secrets_half_calls w (enable : bool) (name : string) :
  let t := trace (secrets_half w enable name) in
  List.filter is_NewAPIClient t = []
  ∧ List.filter is_Close t = []
  ∧ List.filter is_cluster_call t = []
  ∧ List.filter is_transport_call t = []
  ∧ (enable = true → List.filter is_DeleteSecret t = [])
  ∧ (enable = true → name = "registry-creds" →
     List.filter is_confirmation t
     = [ AskForYesNoConfirmation_call
           (LF +:+ "Do you want to enable AWS Elastic Container Registry?")
           ["yes"; "y"] ["no"; "n"];
         AskForYesNoConfirmation_call
           (LF +:+ "Do you want to enable Google Container Registry?")
           ["yes"; "y"] ["no"; "n"];
         AskForYesNoConfirmation_call
           (LF +:+ "Do you want to enable Docker Registry?")
           ["yes"; "y"] ["no"; "n"] ]).
Proof.
  unfold_calls.
  destruct enable; [destruct (String.eqb_spec name "registry-creds") |];
    reduce; [| done | done].
  oracle_cases; done.
Qed.

Lemma dispatch_half_calls w (enable : bool) (name : string) :
  let r := dispatch_half w enable name in
  List.filter is_NewAPIClient (trace r) = [NewAPIClient_call (GetClientType w)]
  ∧ List.filter is_confirmation (trace r) = []
  ∧ List.filter is_Close (trace r)
    = match NewAPIClient w (GetClientType w), outcome r with
      | (api, None), (Normal _ | Panic) => [Close_call api]
      | _, _ => []
      end.
Proof.
  unfold_calls. destruct enable; oracle_cases; done.
Qed.

(** X2: when the machine API client cannot be had, the process exits
    with status 1 after printing the error to standard error.  Nothing is
    asked of the cluster or the transport and no client is closed; the
    secrets have been dealt with by then: on the disable path the three
    deletions are requested all the same. *)
Theorem toggle_client_failure w (name val : string) api e :
  NewAPIClient w (GetClientType w) = (api, Some e) →
  let r := EnableOrDisableAddon w name val in
  outcome r = Exit 1
  ∧ last (trace r)
    = Some (Fprintf_Stderr ("Error getting client: " +:+ Error e +:+ LF))
  ∧ List.filter is_cluster_call (trace r) = []
  ∧ List.filter is_Close (trace r) = []
  ∧ ((strconv.ParseBool val).1 = false →
     List.filter is_DeleteSecret (trace r) = cleanup_requests).
Proof.
  intros Hnew r. subst r.
  pose proof (dispatch_half_paths w (strconv.ParseBool val).1 name) as Hpath.
  rewrite Hnew in Hpath.
  destruct (secrets_half_calls w (strconv.ParseBool val).1 name)
    as (_ & Hclose & Hcluster & _).
  rewrite toggle_outcome, toggle_trace, Hpath, !List.filter_app, Hclose, Hcluster.
  split_and!; try reflexivity.
  - by rewrite last_app.
  - intros ->. reflexivity.
Qed.

(** X3: when the cluster guard ends the process, the toggle ends with
    the guard's exit status; the guard's call is the last one made, the
    deferred close of the client is skipped and the transport is not
    asked anything. *)
Theorem toggle_not_running w (name val : string) api code :
  NewAPIClient w (GetClientType w) = (api, None) →
  EnsureMinikubeRunningOrExit w api 0 = Some code →
  let r := EnableOrDisableAddon w name val in
  outcome r = Exit code
  ∧ last (trace r) = Some (EnsureMinikubeRunningOrExit_call api 0)
  ∧ List.filter is_Close (trace r) = []
  ∧ List.filter is_transport_call (trace r) = [].
Proof.
  intros Hnew Hens r. subst r.
  pose proof (dispatch_half_paths w (strconv.ParseBool val).1 name) as Hpath.
  rewrite Hnew, Hens in Hpath.
  destruct (secrets_half_calls w (strconv.ParseBool val).1 name)
    as (_ & Hclose & _ & Htransport & _).
  rewrite toggle_outcome, toggle_trace, Hpath, !List.filter_app, Hclose, Htransport.
  split_and!; try reflexivity. by rewrite last_app.
Qed.

(** X4: the error of [CheckIfApiExistsAndLoad] is not looked at.  When
    the host it returns is nil, reading the host's driver panics: no SSH
    client is asked for, no transport request is made, and the deferred
    close of the client runs last. *)
Theorem toggle_nil_host w (name val : string) api err :
  NewAPIClient w (GetClientType w) = (api, None) →
  EnsureMinikubeRunningOrExit w api 0 = None →
  CheckIfApiExistsAndLoad w api = (None, err) →
  let r := EnableOrDisableAddon w name val in
  outcome r = Panic
  ∧ last (trace r) = Some (Close_call api)
  ∧ List.filter is_cluster_call (trace r)
    = [EnsureMinikubeRunningOrExit_call api 0; CheckIfApiExistsAndLoad_call api].
Proof.
  intros Hnew Hens Hload r. subst r.
  pose proof (dispatch_half_paths w (strconv.ParseBool val).1 name) as Hpath.
  rewrite Hnew, Hens, Hload in Hpath.
  destruct (secrets_half_calls w (strconv.ParseBool val).1 name)
    as (_ & _ & Hcluster & _).
  rewrite toggle_outcome, toggle_trace, Hpath, !List.filter_app, Hcluster.
  split_and!; try reflexivity. by rewrite last_app.
Qed.

(** X5: when no SSH client can be had, the toggle returns that error
    wrapped with the add-on name, makes no transport request and closes
    the client last. *)
Theorem toggle_ssh_failure w (name val : string) api host err client e :
  NewAPIClient w (GetClientType w) = (api, None) →
  EnsureMinikubeRunningOrExit w api 0 = None →
  CheckIfApiExistsAndLoad w api = (Some host, err) →
  NewSSHClient w (Driver host) = (client, Some e) →
  let r := EnableOrDisableAddon w name val in
  outcome r
  = Normal (Some (inr (Wrapf e (wrap_message (strconv.ParseBool val).1 name))))
  ∧ last (trace r) = Some (Close_call api)
  ∧ List.filter is_transport_call (trace r) = [].
Proof.
  intros Hnew Hens Hload Hssh r. subst r.
  pose proof (dispatch_half_paths w (strconv.ParseBool val).1 name) as Hpath.
  rewrite Hnew, Hens, Hload, Hssh in Hpath.
  destruct (secrets_half_calls w (strconv.ParseBool val).1 name)
    as (_ & _ & _ & Htransport & _).
  rewrite toggle_outcome, toggle_trace, Hpath, !List.filter_app, Htransport.
  split_and!; try reflexivity. by rewrite last_app.
Qed.

(** X6: with a client, a running cluster, a host (whatever error came
    with it) and an SSH client, the toggle makes exactly one transport
    request, a transfer when enabling and a deletion otherwise, for the
    descriptor registered under the name; it returns nil when the request
    succeeds and the wrapped error when it fails, and closes the client
    last. *)
Theorem toggle_dispatches_once w (name val : string) api host err client :
  NewAPIClient w (GetClientType w) = (api, None) →
  EnsureMinikubeRunningOrExit w api 0 = None →
  CheckIfApiExistsAndLoad w api = (Some host, err) →
  NewSSHClient w (Driver host) = (client, None) →
  let r := EnableOrDisableAddon w name val in
  let enable := (strconv.ParseBool val).1 in
  outcome r
  = Normal ((λ e, inr (Wrapf e (wrap_message enable name)))
            <$> (if enable then TransferAddon w (Addons w !! name) client
                 else DeleteAddon w (Addons w !! name) client))
  ∧ List.filter is_transport_call (trace r)
    = [ if enable then TransferAddon_call (Addons w !! name) client
        else DeleteAddon_call (Addons w !! name) client ]
  ∧ last (trace r) = Some (Close_call api).
Proof.
  intros Hnew Hens Hload Hssh r enable. subst r enable.
  pose proof (dispatch_half_paths w (strconv.ParseBool val).1 name) as Hpath.
  rewrite Hnew, Hens, Hload, Hssh in Hpath.
  destruct (secrets_half_calls w (strconv.ParseBool val).1 name)
    as (_ & _ & _ & Htransport & _).
  rewrite toggle_outcome, toggle_trace, Hpath, !List.filter_app, Htransport.
  split_and!; [reflexivity | | by rewrite last_app].
  by destruct (strconv.ParseBool val).1.
Qed.

(** X7: the client is closed exactly once on every run in which it was
    acquired and the process did not exit, and never otherwise. *)
Theorem client_released w (name val : string) :
  let r := EnableOrDisableAddon w name val in
  List.filter is_Close (trace r)
  = match NewAPIClient w (GetClientType w), outcome r with
    | (api, None), (Normal _ | Panic) => [Close_call api]
    | _, _ => []
    end.
Proof.
  intros r. subst r.
  destruct (secrets_half_calls w (strconv.ParseBool val).1 name) as (_ & Hclose & _).
  destruct (dispatch_half_calls w (strconv.ParseBool val).1 name) as (_ & _ & Hd).
  by rewrite toggle_outcome, toggle_trace, List.filter_app, Hclose, Hd.
Qed.

(** X8: every run asks for the machine API client exactly once, of the
    local type when the vendored-driver flag is set and of the RPC type
    otherwise. *)
Theorem client_requested_once w (name val : string) :
  List.filter is_NewAPIClient (trace (EnableOrDisableAddon w name val))
  = [ NewAPIClient_call (if GetBool w (useVendoredDriver w)
                         then ClientTypeLocal else ClientTypeRPC) ].
Proof.
  destruct (secrets_half_calls w (strconv.ParseBool val).1 name) as (Hnew & _).
  destruct (dispatch_half_calls w (strconv.ParseBool val).1 name) as (Hd & _).
  by rewrite toggle_trace, List.filter_app, Hnew, Hd.
Qed.

(** X9: an error the toggle returns is always one it wrapped itself,
    under the transfer or deletion message; its text carries the add-on
    name and the text of the cause.  The plain return after the registry
    lookup never fires. *)
Theorem toggle_errors_wrapped w (name val : string) e :
  outcome (EnableOrDisableAddon w name val) = Normal (Some e) →
  ∃ c, e = inr (Wrapf c (wrap_message (strconv.ParseBool val).1 name))
       ∧ contains (Error (Wrapf c (wrap_message (strconv.ParseBool val).1 name))) name
       ∧ contains (Error (Wrapf c (wrap_message (strconv.ParseBool val).1 name)))
           (Error c).
Proof.
  rewrite toggle_outcome. intros [c ->]%dispatch_half_wraps.
  exists c. split; [reflexivity |].
  unfold Error at 1 3, withMessage_error, Wrapf, wrap_message. simpl. split.
  - apply contains_app_r. destruct (strconv.ParseBool val).1;
      apply contains_app_l, contains_app_r, contains_refl.
  - apply contains_app_l, contains_app_l, contains_refl.
Qed.

(** X10: enabling an add-on other than registry-creds asks the operator
    nothing and requests neither the creation nor the deletion of a
    secret. *)
Theorem enable_other_addon w (name val : string) :
  val ∈ true_lexemes → name ≠ "registry-creds" →
  let t := trace (EnableOrDisableAddon w name val) in
  List.filter is_collector_call t = []
  ∧ List.filter is_CreateSecret t = []
  ∧ List.filter is_DeleteSecret t = [].
Proof.
  intros Hval Hname t. subst t.
  assert (Hon : (strconv.ParseBool val).1 = true) by by rewrite ParseBool_true.
  rewrite toggle_trace, Hon, !List.filter_app.
  destruct (dispatch_half_quiet w true name) as (-> & -> & -> & _).
  unfold secrets_half. apply String.eqb_neq in Hname. by rewrite Hname.
Qed.

(** X11: enabling registry-creds asks the three confirmations, for ECR,
    GCR and the Docker registry in this order, once each and whatever the
    answers are. *)
Theorem confirmations_asked w (val : string) :
  val ∈ true_lexemes →
  List.filter is_confirmation (trace (EnableOrDisableAddon w "registry-creds" val))
  = [ AskForYesNoConfirmation_call
        (LF +:+ "Do you want to enable AWS Elastic Container Registry?")
        ["yes"; "y"] ["no"; "n"];
      AskForYesNoConfirmation_call
        (LF +:+ "Do you want to enable Google Container Registry?")
        ["yes"; "y"] ["no"; "n"];
      AskForYesNoConfirmation_call
        (LF +:+ "Do you want to enable Docker Registry?")
        ["yes"; "y"] ["no"; "n"] ].
Proof.
  intros Hval.
  assert (Hon : (strconv.ParseBool val).1 = true) by by rewrite ParseBool_true.
  rewrite toggle_trace, Hon, List.filter_app.
  destruct (secrets_half_calls w true "registry-creds") as (_ & _ & _ & _ & _ & Hasked).
  destruct (dispatch_half_calls w true "registry-creds") as (_ & Hnone & _).
  by rewrite Hasked, Hnone.
Qed.

(** X12: when the operator confirms GCR, the data of the GCR secret is
    the content of the credentials file named in answer to the prompt;
    when the file cannot be read it is the placeholder "changeme", and
    the run goes on all the same. *)
Theorem gcr_credentials w (val : string) dat err :
  val ∈ true_lexemes →
  AskForYesNoConfirmation w (LF +:+ "Do you want to enable Google Container Registry?")
    ["yes"; "y"] ["no"; "n"] = true →
  ReadFile w (AskForStaticValue w "-- Enter path to credentials (e.g. /home/user/.config/gcloud/application_default_credentials.json):")
  = (dat, err) →
  created_data "registry-creds-gcr" (trace (EnableOrDisableAddon w "registry-creds" val))
  = [ list_to_map [("application_default_credentials.json",
                    if err is Some _ then "changeme" else dat)] ].
Proof.
  intros Hval Hyes Hread.
  assert (Hon : (strconv.ParseBool val).1 = true) by by rewrite ParseBool_true.
  rewrite toggle_trace, Hon. unfold created_data. rewrite omap_app.
  destruct (dispatch_half_quiet w true "registry-creds") as (_ & Hnone & _).
  assert (Hd : omap (λ e : @event Addon drivers_Driver API SSHClient,
                       match e with
                       | CreateSecret_call _ name data _ =>
                           if String.eqb name "registry-creds-gcr" then Some data else None
                       | _ => None
                       end) (trace (dispatch_half w true "registry-creds")) = []).
  { clear -Hnone. induction (trace (dispatch_half w true "registry-creds")) as [| e t IH];
      [reflexivity |].
    simpl in Hnone. destruct e; simpl in *; try discriminate; by apply IH. }
  rewrite Hd, app_nil_r. clear Hd Hnone.
  unfold_calls. reduce.
  destruct (AskForYesNoConfirmation w
              (LF +:+ "Do you want to enable AWS Elastic Container Registry?")
              ["yes"; "y"] ["no"; "n"]); reduce; rewrite Hyes; reduce;
    rewrite Hread; destruct err; reduce; oracle_cases; reflexivity.
Qed.

End ToggleProperties.

Lemma disable_only_deletes_witness :
  let t := trace (EnableOrDisableAddon sample_world "dashboard" "false") in
  List.filter is_collector_call t = []
  ∧ List.filter is_CreateSecret t = []
  ∧ List.filter is_DeleteSecret t = cleanup_requests.
Proof. apply (disable_only_deletes sample_world "dashboard" "false"). reflexivity. Defined.

Lemma parse_failure_disables_witness :
  EnableOrDisableAddon sample_world "dashboard" "maybe"
  = EnableOrDisableAddon sample_world "dashboard" "false".
Proof.
  apply (parse_failure_disables sample_world "dashboard" "maybe"). list_mem.
Defined.

(** The claim C1 fails on the code: "heapster" is not registered, and the
    toggle still asks the transport to transfer the nil descriptor and
    returns nil. *)
Lemma absent_addon_counterexample :
  Addons sample_world !! "heapster" = None
  ∧ EnableOrDisableAddon sample_world "heapster" "true"
    = mk (Normal None)
         [ NewAPIClient_call ClientTypeRPC;
           EnsureMinikubeRunningOrExit_call () 0;
           CheckIfApiExistsAndLoad_call ();
           NewSSHClient_call "virtualbox";
           TransferAddon_call None ();
           Close_call () ].
Proof. split; [by vm_compute | reflexivity]. Qed.

Lemma absent_addon_dispatched_witness :
  TransferAddon_call None () ∈ trace (EnableOrDisableAddon sample_world "heapster" "true")
  ∧ outcome (EnableOrDisableAddon sample_world "heapster" "true") = Normal None.
Proof.
  apply (absent_addon_dispatched sample_world "heapster" "true"
           () {| Driver := "virtualbox" |} None ()); by vm_compute.
Defined.

Lemma enable_declined_placeholders_witness :
  List.filter is_CreateSecret
    (trace (EnableOrDisableAddon sample_world "registry-creds" "true"))
  = placeholder_requests.
Proof.
  apply (enable_declined_placeholders sample_world "true"); [list_mem | reflexivity].
Defined.

Lemma creation_failures_not_fatal_witness :
  outcome (EnableOrDisableAddon sample_world "registry-creds" "true")
  = outcome (EnableOrDisableAddon (creations_succeed sample_world) "registry-creds" "true").
Proof.
  apply (creation_failures_not_fatal sample_world "registry-creds" "true"). list_mem.
Defined.

(** ** More on the typed mutators *)

(** What a mutator does depends on the name and the raw value only: it
    either writes one value at the name or returns an error and writes
    nothing, whatever the store holds. *)
Lemma mutator_shape f (name val : string) :
  f ∈ mutators →
  (∃ x, ∀ m : MinikubeConfig, f m name val = (<[name := x]> m, None))
  ∨ (∃ e, ∀ m : MinikubeConfig, f m name val = (m, Some e)).
Proof.
  unfold mutators. intros Hf.
  repeat (apply elem_of_cons in Hf as [-> | Hf]); [| | | by apply elem_of_nil in Hf].
  - left. by exists (VString val).
  - unfold SetInt. destruct (strconv.Atoi val) as [i [e |]]; [right | left]; eauto.
  - unfold SetBool. destruct (strconv.ParseBool val) as [b [e |]]; [right | left]; eauto.
Qed.

(** X13: mutator calls on different names commute: the store they leave
    is the same in either order, whether or not one of them fails. *)
Theorem mutators_commute f g (m : MinikubeConfig) (name1 val1 name2 val2 : string) :
  f ∈ mutators → g ∈ mutators → name1 ≠ name2 →
  (g (f m name1 val1).1 name2 val2).1 = (f (g m name2 val2).1 name1 val1).1.
Proof.
  intros Hf Hg Hne.
  destruct (mutator_shape f name1 val1 Hf) as [[x Hx] | [e He]];
    destruct (mutator_shape g name2 val2 Hg) as [[y Hy] | [e' He']];
    rewrite ?Hx, ?Hy, ?He, ?He'; simpl; rewrite ?Hx, ?Hy, ?He, ?He'; simpl;
    try reflexivity.
  by apply insert_insert_ne.
Qed.

Lemma mutators_commute_witness :
  (SetInt (SetBool ∅ "WantReportError" "true").1 "cpus" "4").1
  = (SetBool (SetInt ∅ "cpus" "4").1 "WantReportError" "true").1.
Proof.
  apply (mutators_commute SetBool SetInt ∅ "WantReportError" "true" "cpus" "4").
  - unfold mutators. set_solver.
  - unfold mutators. set_solver.
  - discriminate.
Defined.

(** X14: the later of two mutator calls on one name wins: when it
    succeeds, the store is the one it would have left without the
    earlier call; when it fails, the earlier call's store stays. *)
Theorem mutators_last_write f g (m : MinikubeConfig) (name val1 val2 : string) :
  f ∈ mutators → g ∈ mutators →
  let m1 := (f m name val1).1 in
  ((g m name val2).2 = None → (g m1 name val2).1 = (g m name val2).1)
  ∧ ((g m name val2).2 ≠ None → (g m1 name val2).1 = m1).
Proof.
  intros Hf Hg m1. subst m1.
  destruct (mutator_shape f name val1 Hf) as [[x Hx] | [e He]];
    destruct (mutator_shape g name val2 Hg) as [[y Hy] | [e' He']];
    rewrite ?Hx, ?Hy, ?He, ?He'; simpl; rewrite ?Hx, ?Hy, ?He, ?He'; simpl;
    split; try done.
  intros _. by rewrite insert_insert_eq.
Qed.

Lemma mutators_last_write_witness :
  (SetInt (SetString ∅ "cpus" "two").1 "cpus" "4").1 = (SetInt ∅ "cpus" "4").1.
Proof.
  apply (mutators_last_write SetString SetInt ∅ "cpus" "two" "4").
  - unfold mutators. set_solver.
  - unfold mutators. set_solver.
  - reflexivity.
Defined.

(** *** Integers out of range *)

Lemma ParseUint_loop_range (s : string) : ∀ n : Z,
  all_digits s = true → 0 ≤ n ≤ strconv.maxUint64 →
  strconv.maxUint64 < n * 10 ^ Z.of_nat (String.length s) + decimal_value s →
  strconv.ParseUint_loop s n = inr strconv.ErrRange.
Proof.
  induction s as [| c s IH]; intros n Hd Hn Hgt; simpl in *.
  - lia.
  - apply andb_prop in Hd as [Hc Hs]. rewrite Hc. simpl.
    destruct (Z.leb_spec (strconv.maxUint64 / 10 + 1) n); [reflexivity |].
    destruct (Z.ltb_spec strconv.maxUint64 (n * 10 + strconv.digit c)); [reflexivity |].
    pose proof (isDigit_digit c Hc) as Hdc.
    apply IH; [assumption | lia |].
    rewrite Nat2Z.inj_succ, Z.pow_succ_r in Hgt by lia. lia.
Qed.

(** X15: a decimal literal whose value does not fit a 64-bit [int] makes
    [SetInt] return the range error citing the literal, the store left as
    it was. *)
Theorem SetInt_out_of_range (m : MinikubeConfig) (name val : string) :
  is_decimal_literal val = true →
  ¬ (- 2 ^ 63 ≤ literal_value val < 2 ^ 63) →
  SetInt m name val = (m, Some (strconv.rangeError val)).
Proof.
  unfold SetInt, strconv.Atoi, strconv.ParseInt, is_decimal_literal, literal_value.
  destruct val as [| c rest]; [discriminate |].
  cbv zeta. change (2 ^ (strconv.intSize - 1)) with (2 ^ 63).
  assert (Hu : ∀ s, unsigned_literal s = true →
            strconv.ParseUint s
            = if decimal_value s <=? strconv.maxUint64 then inl (decimal_value s)
              else inr strconv.ErrRange).
  { intros s Hs. destruct (Z.leb_spec (decimal_value s) strconv.maxUint64).
    - by apply ParseUint_value.
    - destruct s as [| c' s']; [discriminate |]. unfold strconv.ParseUint.
      apply ParseUint_loop_range; [assumption | unfold strconv.maxUint64; lia | lia]. }
  assert (Hnn : ∀ s, unsigned_literal s = true → 0 ≤ decimal_value s).
  { intros s Hs. apply decimal_value_nonneg. by destruct s. }
  destruct (Ascii.eqb c "-") eqn:Hminus.
  - rewrite orb_true_r. intros Hlit Hout. rewrite (Hu _ Hlit).
    specialize (Hnn _ Hlit).
    destruct (Z.leb_spec (decimal_value rest) strconv.maxUint64); [| reflexivity].
    cbn [negb andb].
    destruct (Z.ltb_spec (2 ^ 63) (decimal_value rest)); [reflexivity | lia].
  - rewrite orb_false_r. cbn [negb andb].
    destruct (Ascii.eqb c "+"); intros Hlit Hout; rewrite (Hu _ Hlit);
      specialize (Hnn _ Hlit).
    + destruct (Z.leb_spec (decimal_value rest) strconv.maxUint64); [| reflexivity].
      destruct (Z.leb_spec (2 ^ 63) (decimal_value rest)); [reflexivity | lia].
    + destruct (Z.leb_spec (decimal_value (String c rest)) strconv.maxUint64);
        [| reflexivity].
      destruct (Z.leb_spec (2 ^ 63) (decimal_value (String c rest)));
        [reflexivity | lia].
Qed.

Lemma SetInt_out_of_range_witness :
  SetInt ∅ "memory" "9223372036854775808"
  = (∅, Some (strconv.rangeError "9223372036854775808")).
Proof.
  apply (SetInt_out_of_range ∅ "memory" "9223372036854775808").
  - reflexivity.
  - vm_compute. intros [_ Hlt]. discriminate Hlt.
Defined.

(** ** More on the setting applier *)

Section ApplierComposition.

Context {St E : Type} `{error E}.

Lemma called_in_turn_app (name value : string) (fns1 fns2 : list (@setFn St E)) (st : St) :
  called_in_turn name value (fns1 ++ fns2) st
  = called_in_turn name value fns2 (called_in_turn name value fns1 st).
Proof. unfold called_in_turn. apply fold_left_app. Qed.

Lemma returned_app (name value : string) (fns1 fns2 : list (@setFn St E)) :
  ∀ st : St,
  returned name value (fns1 ++ fns2) st
  = (returned name value fns1 st
     ++ returned name value fns2 (called_in_turn name value fns1 st))%list.
Proof.
  induction fns1 as [| fn fns1 IH]; intros st; simpl; [reflexivity |].
  by rewrite IH.
Qed.

Lemma run_store (name value : string) (fns : list (@setFn St E)) (st : St) :
  (run name value fns st).1 = called_in_turn name value fns st.
Proof.
  unfold run. rewrite run_loop_spec. simpl.
  by destruct (failures name value fns st).
Qed.

Lemma run_error (name value : string) (fns : list (@setFn St E)) (st : St) :
  (run name value fns st).2 = None ↔ failures name value fns st = [].
Proof.
  unfold run. rewrite run_loop_spec. simpl.
  by destruct (failures name value fns st).
Qed.

(** X16: [run] returns nil exactly when every function it called returned
    nil. *)
Theorem run_nil_iff (name value : string) (fns : list (@setFn St E)) (st : St) :
  (run name value fns st).2 = None
  ↔ Forall (λ r, r = None) (returned name value fns st).
Proof.
  rewrite run_error. unfold failures.
  induction (returned name value fns st) as [| r rs IH]; simpl.
  - split; [constructor | reflexivity].
  - destruct r as [e |]; simpl.
    + split; [discriminate | by inversion 1].
    + rewrite IH. split; [by constructor | by inversion 1].
Qed.

(** X17: running a list of functions made of two parts is running the
    first part, then the second on what the first left: the final state
    is the same, the failures are those of the first part followed by
    those of the second, and the whole returns nil exactly when both
    parts do. *)
Theorem run_app (name value : string) (fns1 fns2 : list (@setFn St E)) (st : St) :
  let r1 := run name value fns1 st in
  let r2 := run name value fns2 r1.1 in
  (run name value (fns1 ++ fns2) st).1 = r2.1
  ∧ failures name value (fns1 ++ fns2) st
    = (failures name value fns1 st ++ failures name value fns2 r1.1)%list
  ∧ ((run name value (fns1 ++ fns2) st).2 = None ↔ r1.2 = None ∧ r2.2 = None).
Proof.
  intros r1 r2. subst r1 r2.
  assert (Hf : failures name value (fns1 ++ fns2) st
               = (failures name value fns1 st
                  ++ failures name value fns2 (run name value fns1 st).1)%list).
  { unfold failures. by rewrite returned_app, omap_app, run_store. }
  split; [| split].
  - by rewrite !run_store, called_in_turn_app.
  - exact Hf.
  - rewrite !run_error, Hf. split.
    + by intros [-> ->]%app_eq_nil.
    + by intros [-> ->].
Qed.

End ApplierComposition.

(** ** More on the setting registry *)

Lemma findSetting_loop_first {St E} (before after : list (Setting St E))
    (s : Setting St E) :
  name s ∉ name <$> before →
  findSetting_loop (name s) (before ++ s :: after) = (s, None).
Proof.
  induction before as [| s0 before IH]; simpl.
  - intros _. by rewrite String.eqb_refl.
  - intros [Hne Hnot]%not_elem_of_cons.
    destruct (String.eqb_spec (name s) (name s0)); [done | by apply IH].
Qed.

(** X18: [findSetting] returns the first setting of the registry that
    bears the name, also when later ones bear it too. *)
Theorem findSetting_first {St E} (before after : list (Setting St E))
    (s : Setting St E) :
  name s ∉ name <$> before →
  findSetting (before ++ s :: after) (name s) = (s, None).
Proof. unfold findSetting. apply findSetting_loop_first. Qed.

Lemma findSetting_first_witness :
  findSetting (sample_settings
               ++ [{| name := "cpus"; set := Some (λ m _ _, (m, None)); validations := [] |}]) "memory"
  = ({| name := "memory"; set := None; validations := [] |}, None).
Proof.
  apply (findSetting_first [ {| name := "cpus"; set := None; validations := [] |} ]
           [ {| name := "cpus"; set := Some (λ m _ _, (m, None)); validations := [] |} ]
           {| name := "memory"; set := None; validations := [] |}).
  list_mem.
Defined.

(** X19: in a registry whose names are pairwise distinct, looking up the
    name of a registered setting returns that very setting. *)
Theorem findSetting_registered {St E} (settings : list (Setting St E))
    (s : Setting St E) :
  NoDup (name <$> settings) → s ∈ settings →
  findSetting settings (name s) = (s, None).
Proof.
  intros Hnodup Hin.
  apply list_elem_of_split in Hin as (before & after & ->).
  unfold findSetting. apply findSetting_loop_first.
  rewrite fmap_app, fmap_cons in Hnodup.
  apply NoDup_app in Hnodup as (_ & Hdisj & _).
  intros Hbefore. apply (Hdisj _ Hbefore). left.
Qed.

Lemma findSetting_registered_witness :
  findSetting sample_settings "memory"
  = ({| name := "memory"; set := None; validations := [] |}, None).
Proof.
  apply (findSetting_registered sample_settings
           {| name := "memory"; set := None; validations := [] |}).
  - apply (bool_decide_unpack _). vm_compute. exact I.
  - unfold sample_settings. right. left.
Defined.

(** ** The sample runs *)

Lemma toggle_client_failure_witness :
  outcome (EnableOrDisableAddon
             (sample_world_with (λ _, false)
                (Some {| errorString_s := "no machine" |}) None None None None)
             "dashboard" "false")
  = Exit 1.
Proof.
  apply (toggle_client_failure
           (sample_world_with (λ _, false)
              (Some {| errorString_s := "no machine" |}) None None None None)
           "dashboard" "false" () {| errorString_s := "no machine" |}).
  reflexivity.
Defined.

Lemma toggle_not_running_witness :
  outcome (EnableOrDisableAddon
             (sample_world_with (λ _, false) None None None (Some 0) None)
             "dashboard" "true")
  = Exit 0.
Proof.
  apply (toggle_not_running
           (sample_world_with (λ _, false) None None None (Some 0) None)
           "dashboard" "true" () 0); reflexivity.
Defined.

Lemma toggle_nil_host_witness :
  outcome (EnableOrDisableAddon
             (sample_world_with (λ _, false) None None None None None)
             "dashboard" "true")
  = Panic.
Proof.
  apply (toggle_nil_host
           (sample_world_with (λ _, false) None None None None None)
           "dashboard" "true" () None); reflexivity.
Defined.

Lemma toggle_ssh_failure_witness :
  outcome (EnableOrDisableAddon
             (sample_world_with (λ _, false) None
                (Some {| errorString_s := "connection refused" |}) None None
                (Some {| Driver := "virtualbox" |}))
             "dashboard" "true")
  = Normal (Some (inr (Wrapf {| errorString_s := "connection refused" |}
                         "Error transferring addon dashboard to VM"))).
Proof.
  apply (toggle_ssh_failure
           (sample_world_with (λ _, false) None
              (Some {| errorString_s := "connection refused" |}) None None
              (Some {| Driver := "virtualbox" |}))
           "dashboard" "true" () {| Driver := "virtualbox" |} None ()
           {| errorString_s := "connection refused" |}); reflexivity.
Defined.

Lemma toggle_dispatches_once_witness :
  outcome (EnableOrDisableAddon sample_world "dashboard" "false") = Normal None
  ∧ List.filter is_transport_call
      (trace (EnableOrDisableAddon sample_world "dashboard" "false"))
    = [DeleteAddon_call (Some ["dashboard-rc.yaml"; "dashboard-svc.yaml"]) ()].
Proof.
  destruct (toggle_dispatches_once sample_world "dashboard" "false"
              () {| Driver := "virtualbox" |} None ()) as (Hout & Hcall & _);
    try reflexivity.
  split; [exact Hout |]. rewrite Hcall. by vm_compute.
Defined.

Lemma toggle_errors_wrapped_witness :
  ∃ c : errorString,
    contains (Error (Wrapf c "Error deleting addon dashboard from VM")) "dashboard"
    ∧ contains (Error (Wrapf c "Error deleting addon dashboard from VM")) (Error c).
Proof.
  destruct (toggle_errors_wrapped
              (sample_world_with (λ _, false) None None
                 (Some {| errorString_s := "disk full" |}) None
                 (Some {| Driver := "virtualbox" |}))
              "dashboard" "false"
              (inr (Wrapf {| errorString_s := "disk full" |}
                      "Error deleting addon dashboard from VM")))
    as (c & _ & Hname & Hcause); [reflexivity |].
  exists c. split; [exact Hname | exact Hcause].
Defined.

Lemma enable_other_addon_witness :
  let t := trace (EnableOrDisableAddon sample_world "dashboard" "true") in
  List.filter is_collector_call t = []
  ∧ List.filter is_CreateSecret t = []
  ∧ List.filter is_DeleteSecret t = [].
Proof.
  apply (enable_other_addon sample_world "dashboard" "true"); [list_mem | discriminate].
Defined.

Lemma confirmations_asked_witness :
  length (List.filter is_confirmation
            (trace (EnableOrDisableAddon sample_world "registry-creds" "1")))
  = 3%nat.
Proof.
  rewrite (confirmations_asked sample_world "1"); [reflexivity | list_mem].
Defined.

Lemma gcr_credentials_witness :
  created_data "registry-creds-gcr"
    (trace (EnableOrDisableAddon
              (sample_world_with
                 (String.eqb (LF +:+ "Do you want to enable Google Container Registry?"))
                 None None None None (Some {| Driver := "virtualbox" |}))
              "registry-creds" "true"))
  = [ list_to_map [("application_default_credentials.json", "changeme")] ].
Proof.
  apply (gcr_credentials
           (sample_world_with
              (String.eqb (LF +:+ "Do you want to enable Google Container Registry?"))
              None None None None (Some {| Driver := "virtualbox" |}))
           "true" EmptyString (Some {| errorString_s := "no such file" |}));
    [list_mem | reflexivity | reflexivity].
Defined.

Lemma run_nil_iff_witness :
  (run "cpus" "4" [accepts; accepts] 0%nat).2 = None.
Proof.
  apply (run_nil_iff (E := errorString) "cpus" "4" [accepts; accepts] 0%nat).
  repeat constructor.
Defined.

Lemma run_app_witness :
  (run "cpus" "x" sample_fns 0%nat).1
  = (run "cpus" "x" [accepts; rejects "too small"]
       (run "cpus" "x" [rejects "not a number"] 0%nat).1).1.
Proof.
  apply (run_app "cpus" "x" [rejects "not a number"] [accepts; rejects "too small"] 0%nat).
Defined.
